(** * mufetch: the terminal renderer, the layout formatter and the search command

    A shallow embedding of [pkg/display], [pkg/spotify] (its record types),
    [pkg/config] and [cmd] of mufetch, and the properties of the written
    specification that can be settled on it.

    Go strings are byte sequences: they are modelled by [string], whose
    characters are bytes, so [String.length] is Go's [len].  Go's [int] is
    modelled by [Z].  Everything that leaves the process (HTTP, the image
    decoder, the resampling library, float formatting, Unicode case mapping)
    is a field of the record [World]. *)

From Stdlib Require Import ZArith List String Ascii Bool Lia DecimalString.
Import ListNotations.

#[local] Open Scope string_scope.
#[local] Open Scope Z_scope.

(* ================================================================= *)
(** ** Go strings and formatting verbs *)

(** [len(s)] of a string: its number of bytes. *)
Definition len (s : string) : Z := Z.of_nat (String.length s).

(** [len(xs)] of a slice. *)
Definition llen {A : Type} (xs : list A) : Z := Z.of_nat (List.length xs).

(** [strings.Repeat(s, count)] for a count that is not negative. *)
Fixpoint Repeat (s : string) (count : nat) : string :=
  match count with
  | O => EmptyString
  | S k => s ++ Repeat s k
  end.

(** [strings.Join(elems, sep)]. *)
Definition Join (elems : list string) (sep : string) : string :=
  String.concat sep elems.

(** [s[:n]] for [0 <= n <= len(s)]. *)
Definition sliceTo (s : string) (n : nat) : string := String.substring 0 n s.

(** The verb [%d]. *)
Definition itoa (n : Z) : string := NilZero.string_of_int (Z.to_int n).

(** The verb [%02d]: the sign counts for the width, as in Go. *)
Definition fmt02d (n : Z) : string :=
  if 0 <=? n
  then (if n <? 10 then "0" ++ itoa n else itoa n)
  else itoa n.

(** [strings.Contains(s, substr)]. *)
Fixpoint Contains (s substr : string) : bool :=
  String.prefix substr s ||
  match s with
  | EmptyString => false
  | String _ rest => Contains rest substr
  end.

Definition isEmpty (s : string) : bool := String.eqb s EmptyString.

(** The escape byte [\033] and the newline [\n]. *)
Definition ESC : string := String (ascii_of_nat 27) EmptyString.
Definition NL : string := String (ascii_of_nat 10) EmptyString.

(** The backslash that ends a hyperlink sequence. *)
Definition Backslash : string := String (ascii_of_nat 92) EmptyString.

(** ANSI color codes for terminal output (display.go, the const block). *)
Definition ColorReset : string := ESC ++ "[0m".
Definition ColorRed : string := ESC ++ "[31m".
Definition ColorGreen : string := ESC ++ "[32m".
Definition ColorYellow : string := ESC ++ "[33m".
Definition ColorBlue : string := ESC ++ "[34m".
Definition ColorPurple : string := ESC ++ "[35m".
Definition ColorCyan : string := ESC ++ "[36m".
Definition ColorWhite : string := ESC ++ "[37m".
Definition ColorBold : string := ESC ++ "[1m".

(* ================================================================= *)
(** ** What a terminal shows of a line

    The rendered width of a line is the number of characters left once
    the escape sequences are taken out: CSI sequences ([ESC [] up to a
    final byte in [0x40..0x7E]) and OSC sequences ([ESC ]] up to [BEL] or
    [ESC \]).  A character is counted at its first byte, so the
    continuation bytes of a UTF-8 sequence and control bytes count for
    nothing. *)

Inductive TermState : Type :=
| Text
| SawEscape
| InCSI
| InOSC
| InOSCEscape.

Definition byteOf (c : ascii) : Z := Z.of_N (N_of_ascii c).

Definition startsCharacter (c : ascii) : bool :=
  let n := byteOf c in
  ((32 <=? n) && (n <? 127)) || (192 <=? n).

Definition termStep (st : TermState) (c : ascii) : TermState * nat :=
  let n := byteOf c in
  match st with
  | Text =>
      if n =? 27 then (SawEscape, 0%nat)
      else if startsCharacter c then (Text, 1%nat) else (Text, 0%nat)
  | SawEscape =>
      if n =? 91 then (InCSI, 0%nat)
      else if n =? 93 then (InOSC, 0%nat)
      else (Text, 0%nat)
  | InCSI =>
      if (64 <=? n) && (n <=? 126) then (Text, 0%nat) else (InCSI, 0%nat)
  | InOSC =>
      if n =? 7 then (Text, 0%nat)
      else if n =? 27 then (InOSCEscape, 0%nat)
      else (InOSC, 0%nat)
  | InOSCEscape =>
      if n =? 92 then (Text, 0%nat) else (InOSC, 0%nat)
  end.

Fixpoint scan (st : TermState) (s : string) : TermState * nat :=
  match s with
  | EmptyString => (st, 0%nat)
  | String c rest =>
      let (st1, k) := termStep st c in
      let (st2, m) := scan st1 rest in
      (st2, (k + m)%nat)
  end.

Definition visibleWidth (s : string) : nat := snd (scan Text s).

(* ================================================================= *)
(** ** Results, output and process exit

    [fmt.Print] appends to standard output; an index out of range panics;
    [os.Exit] ends the process at once.  A computation takes the output
    written so far and gives its outcome with the output extended. *)

Inductive Result (A : Type) : Type :=
| Ok (a : A)
| Err (msg : string).
Arguments Ok {A} a.
Arguments Err {A} msg.

Inductive Outcome (A : Type) : Type :=
| Returned (a : A)
| Panicked (msg : string)
| Exited (code : Z).
Arguments Returned {A} a.
Arguments Panicked {A} msg.
Arguments Exited {A} code.

Definition Proc (A : Type) : Type := list string -> Outcome A * list string.

Definition ret {A : Type} (a : A) : Proc A := fun out => (Returned a, out).

Definition bind {A B : Type} (m : Proc A) (k : A -> Proc B) : Proc B :=
  fun out =>
    match m out with
    | (Returned a, out1) => k a out1
    | (Panicked msg, out1) => (Panicked msg, out1)
    | (Exited code, out1) => (Exited code, out1)
    end.

Notation "x <- m ;; k" := (bind m (fun x => k))
  (at level 61, m at next level, right associativity).
Notation "m ;; k" := (bind m (fun _ => k))
  (at level 61, right associativity).

(** [fmt.Print(s)]; [Printf] and [Println] are [Print] of the formatted text. *)
Definition Print (s : string) : Proc unit := fun out => (Returned tt, (out ++ [s])%list).

Definition panic {A : Type} (msg : string) : Proc A := fun out => (Panicked msg, out).

(** [os.Exit(code)]: the process ends, deferred calls are not run. *)
Definition os_Exit {A : Type} (code : Z) : Proc A := fun out => (Exited code, out).

(** [defer d] followed by [body]: [d] runs when [body] returns or panics,
    and does not run when the process has exited. *)
Definition defer {A : Type} (d : Proc unit) (body : Proc A) : Proc A :=
  fun out =>
    match body out with
    | (Exited code, out1) => (Exited code, out1)
    | (r, out1) =>
        match d out1 with
        | (Returned _, out2) => (r, out2)
        | (Panicked msg, out2) => (Panicked msg, out2)
        | (Exited code, out2) => (Exited code, out2)
        end
    end.

(** [xs[i]]: panics outside [0 <= i < len(xs)]. *)
Definition index (xs : list string) (i : Z) : Proc string :=
  if (0 <=? i) && (i <? llen xs)
  then ret (nth (Z.to_nat i) xs EmptyString)
  else panic "index out of range".

(** The integers [lo, lo+1, ..., hi-1] of [for i := lo; i < hi; i++]. *)
Definition zrange (lo hi : Z) : list Z :=
  map (fun k => lo + Z.of_nat k) (seq 0 (Z.to_nat (hi - lo))).

Fixpoint forEach {A : Type} (xs : list A) (body : A -> Proc unit) : Proc unit :=
  match xs with
  | [] => ret tt
  | x :: rest => body x ;; forEach rest body
  end.

Definition forRange (lo hi : Z) (body : Z -> Proc unit) : Proc unit :=
  forEach (zrange lo hi) body.

Definition stdout {A : Type} (p : Proc A) : list string := snd (p []).
Definition outcome {A : Type} (p : Proc A) : Outcome A := fst (p []).

(* ================================================================= *)
(** ** pkg/spotify: the records of the catalogue

    The fields the display code reads; the remaining fields of the Go
    structs (markets, restrictions, copyrights, preview URL, ...) are never
    read by the code modelled here. *)

Record ExternalURL : Type := { Spotify : string }.

Record SpotifyImage : Type := { URL : string; ImgHeight : Z; ImgWidth : Z }.

Record Followers : Type := { Total : Z }.

Record Artist : Type := {
  ArtistID : string;
  ArtistName : string;
  ArtistImages : list SpotifyImage;
  ArtistGenres : list string;
  ArtistPopularity : Z;
  ArtistFollowers : Followers;
  ArtistExternalURL : ExternalURL
}.

(** [Track] holds an [Album] and an [Album] holds a page of [Track]s. *)
Inductive Track : Type :=
  mkTrack (ID Name : string) (Artists : list Artist) (album : Album)
          (Duration Popularity TrackNumber : Z) (Explicit : bool)
          (externalURL : ExternalURL)
with Album : Type :=
  mkAlbum (ID Name : string) (Artists : list Artist)
          (Images : list SpotifyImage) (ReleaseDate : string)
          (TotalTracks : Z) (Genres : list string) (Popularity : Z)
          (AlbumType Label : string) (externalURL : ExternalURL)
          (TracksItems : list Track).

Definition TrackName (t : Track) : string :=
  match t with mkTrack _ n _ _ _ _ _ _ _ => n end.
Definition TrackArtists (t : Track) : list Artist :=
  match t with mkTrack _ _ a _ _ _ _ _ _ => a end.
Definition TrackAlbum (t : Track) : Album :=
  match t with mkTrack _ _ _ a _ _ _ _ _ => a end.
Definition TrackDuration (t : Track) : Z :=
  match t with mkTrack _ _ _ _ d _ _ _ _ => d end.
Definition TrackPopularity (t : Track) : Z :=
  match t with mkTrack _ _ _ _ _ p _ _ _ => p end.
Definition TrackNumber (t : Track) : Z :=
  match t with mkTrack _ _ _ _ _ _ n _ _ => n end.
Definition TrackExplicit (t : Track) : bool :=
  match t with mkTrack _ _ _ _ _ _ _ e _ => e end.
Definition TrackExternalURL (t : Track) : ExternalURL :=
  match t with mkTrack _ _ _ _ _ _ _ _ u => u end.

Definition AlbumID (a : Album) : string :=
  match a with mkAlbum i _ _ _ _ _ _ _ _ _ _ _ => i end.
Definition AlbumName (a : Album) : string :=
  match a with mkAlbum _ n _ _ _ _ _ _ _ _ _ _ => n end.
Definition AlbumArtists (a : Album) : list Artist :=
  match a with mkAlbum _ _ x _ _ _ _ _ _ _ _ _ => x end.
Definition AlbumImages (a : Album) : list SpotifyImage :=
  match a with mkAlbum _ _ _ x _ _ _ _ _ _ _ _ => x end.
Definition AlbumReleaseDate (a : Album) : string :=
  match a with mkAlbum _ _ _ _ x _ _ _ _ _ _ _ => x end.
Definition AlbumTotalTracks (a : Album) : Z :=
  match a with mkAlbum _ _ _ _ _ x _ _ _ _ _ _ => x end.
Definition AlbumGenres (a : Album) : list string :=
  match a with mkAlbum _ _ _ _ _ _ x _ _ _ _ _ => x end.
Definition AlbumPopularity (a : Album) : Z :=
  match a with mkAlbum _ _ _ _ _ _ _ x _ _ _ _ => x end.
Definition AlbumType (a : Album) : string :=
  match a with mkAlbum _ _ _ _ _ _ _ _ x _ _ _ => x end.
Definition AlbumLabel (a : Album) : string :=
  match a with mkAlbum _ _ _ _ _ _ _ _ _ x _ _ => x end.
Definition AlbumExternalURL (a : Album) : ExternalURL :=
  match a with mkAlbum _ _ _ _ _ _ _ _ _ _ x _ => x end.
Definition AlbumTracksItems (a : Album) : list Track :=
  match a with mkAlbum _ _ _ _ _ _ _ _ _ _ _ x => x end.

Record SearchResponse : Type := {
  TracksFound : list Track;
  AlbumsFound : list Album;
  ArtistsFound : list Artist
}.

Record TopTracksResponse : Type := { TopTracks : list Track }.

Record ArtistAlbumsResponse : Type := { AlbumItems : list Album; AlbumTotal : Z }.

(** A [*spotify.Client] as the display code sees it: the five calls, each
    answering with a record or an error.  The bearer token it caches is
    internal to these calls. *)
Record Client : Type := {
  Search : string -> string -> Result SearchResponse;
  GetAlbum : string -> Result Album;
  GetArtist : string -> Result Artist;
  GetArtistTopTracks : string -> Result TopTracksResponse;
  GetArtistAlbums : string -> string -> Result ArtistAlbumsResponse
}.

(* ================================================================= *)
(** ** Images and the world outside the process *)

Record Point : Type := { X : Z; Y : Z }.

Record Rectangle : Type := { Min : Point; Max : Point }.

Definition Dx (r : Rectangle) : Z := X (Max r) - X (Min r).
Definition Dy (r : Rectangle) : Z := Y (Max r) - Y (Min r).

(** What [color.Color.RGBA()] returns: four [uint32] components. *)
Record Color : Type := { R : Z; G : Z; B : Z; A : Z }.

(** An [image.Image]: its bounds and the colour at a point. *)
Record Image : Type := { Bounds : Rectangle; At : Z -> Z -> Color }.

(** [pkg/config.Config]. *)
Record Config : Type := { SpotifyClientID : string; SpotifyClientSecret : string }.

Record World : Type := {
  (** [http.Get(url)]: the response body, or an error. *)
  http_Get : string -> Result string;
  (** [image.Decode(body)]. *)
  image_Decode : string -> Result Image;
  (** [imaging.Resize(img, width, height, imaging.Lanczos)]. *)
  imaging_Resize : Image -> Z -> Z -> Image;
  (** [strings.ToLower], Unicode case mapping. *)
  strings_ToLower : string -> string;
  (** [int(d.Minutes())] and [int(d.Seconds())] of a [time.Duration] [d]
      (an [int64] of nanoseconds): both go through [float64]. *)
  intMinutes : Z -> Z;
  intSeconds : Z -> Z;
  (** [fmt.Sprintf("%.1f", float64(n)/float64(d))]. *)
  fmtRatio1 : Z -> Z -> string;
  (** [viper.Unmarshal(&config)]. *)
  viper_Unmarshal : Result Config;
  (** The catalogue behind [spotify.NewClient(id, secret)]. *)
  NewClient : string -> string -> Client
}.

(** The contract of [imaging.Resize] the renderer relies on: for a source
    that is not empty and positive target sizes, the result is an image
    with bounds [(0,0)-(width,height)]. *)
Definition ResizeContract (w : World) : Prop :=
  forall img width height,
    0 < Dx (Bounds img) -> 0 < Dy (Bounds img) ->
    0 < width -> 0 < height ->
    Bounds (imaging_Resize w img width height)
    = {| Min := {| X := 0; Y := 0 |}; Max := {| X := width; Y := height |} |}.

(* ================================================================= *)
(** ** pkg/display: the image renderer *)

(** [ImageRenderer]. *)
Record ImageRenderer : Type := { width : Z; height : Z }.

(** [NewImageRenderer(size)]. *)
Definition NewImageRenderer (size : Z) : ImageRenderer :=
  {| width := size; height := size |}.

(** [downloadImage(url)]: [http.Get] then [image.Decode]. *)
Definition downloadImage (w : World) (url : string) : Result Image :=
  match http_Get w url with
  | Err e => Err e
  | Ok body => image_Decode w body
  end.

(** [uint8(v)]. *)
Definition uint8 (v : Z) : Z := v mod 256.

(** One cell: [fmt.Sprintf("\033[48;2;%d;%d;%dm  \033[0m", r, g, b)] with the
    components brought to 8 bits. *)
Definition blockCell (pixelColor : Color) : string :=
  let r := uint8 (Z.shiftr (R pixelColor) 8) in
  let g := uint8 (Z.shiftr (G pixelColor) 8) in
  let b := uint8 (Z.shiftr (B pixelColor) 8) in
  ESC ++ "[48;2;" ++ itoa r ++ ";" ++ itoa g ++ ";" ++ itoa b ++ "m  " ++ ESC ++ "[0m".

(** The inner loop of [getBlockArtLines]: one row of the resized image. *)
Definition blockArtLine (resized : Image) (y : Z) : string :=
  let bounds := Bounds resized in
  fold_left (fun line x => line ++ blockCell (At resized x y))
            (zrange (X (Min bounds)) (X (Max bounds)))
            " ".

(** [getBlockArtLines(img)]. *)
Definition getBlockArtLines (w : World) (r : ImageRenderer) (img : Image) : list string :=
  let resized := imaging_Resize w img (width r) (height r) in
  let bounds := Bounds resized in
  fold_left (fun lines y => (lines ++ [blockArtLine resized y])%list)
            (zrange (Y (Min bounds)) (Y (Max bounds)))
            [].

(** The eight lines of the placeholder box. *)
Definition placeholderBox : list string :=
  [ " " ++ ColorWhite ++ "┌───────────────────────────────┐" ++ ColorReset;
    " " ++ ColorWhite ++ "│                               │" ++ ColorReset;
    " " ++ ColorWhite ++ "│                               │" ++ ColorReset;
    " " ++ ColorWhite ++ "│           NO IMAGE            │" ++ ColorReset;
    " " ++ ColorWhite ++ "│           AVAILABLE           │" ++ ColorReset;
    " " ++ ColorWhite ++ "│                               │" ++ ColorReset;
    " " ++ ColorWhite ++ "│                               │" ++ ColorReset;
    " " ++ ColorWhite ++ "└───────────────────────────────┘" ++ ColorReset ].

(** [for len(lines) < n { lines = append(lines, fill) }]. *)
Definition padLines (lines : list string) (n : Z) (fill : string) : list string :=
  (lines ++ List.repeat fill (Z.to_nat (n - llen lines)))%list.

(** [getPlaceholderLines()]. *)
Definition getPlaceholderLines (r : ImageRenderer) : list string :=
  padLines placeholderBox 20 (Repeat " " 31).

(** [RenderImageLines(imageURL)]. *)
Definition RenderImageLines (w : World) (r : ImageRenderer) (imageURL : string) : list string :=
  if isEmpty imageURL then getPlaceholderLines r
  else
    match downloadImage w imageURL with
    | Err _ => getPlaceholderLines r
    | Ok img => getBlockArtLines w r img
    end.

(* ================================================================= *)
(** ** Go's [time.Parse] on the two layouts the formatter uses

    [time.Parse] is driven by its layout.  For the layout ["2006-01-02"] it
    reads a year of exactly four digits ([stdLongYear]: four bytes, all
    digits), the literal [-], a month of exactly two digits ([stdZeroMonth],
    in [1..12]), the literal [-], a day of exactly two digits
    ([stdZeroDay]), and refuses any text left; then it checks the day
    against the length of the month.  For the layout ["2006"] it reads the
    year alone. *)

Definition isDigit (c : ascii) : bool :=
  (48 <=? byteOf c) && (byteOf c <=? 57).

Definition digitVal (c : ascii) : Z := byteOf c - 48.

(** [stdLongYear]: the four-digit year and the text after it. *)
Definition parseLongYear (value : string) : option (Z * string) :=
  match value with
  | String a (String b (String c (String d rest))) =>
      if isDigit a && isDigit b && isDigit c && isDigit d
      then Some (1000 * digitVal a + 100 * digitVal b + 10 * digitVal c + digitVal d, rest)
      else None
  | _ => None
  end.

(** [getnum(s, true)]: exactly two digits. *)
Definition getnumFixed (value : string) : option (Z * string) :=
  match value with
  | String a (String b rest) =>
      if isDigit a && isDigit b
      then Some (10 * digitVal a + digitVal b, rest)
      else None
  | _ => None
  end.

(** [skip(value, "-")]. *)
Definition skipDash (value : string) : option string :=
  match value with
  | String c rest => if byteOf c =? 45 then Some rest else None
  | EmptyString => None
  end.

Definition isLeap (year : Z) : bool :=
  (year mod 4 =? 0) && (negb (year mod 100 =? 0) || (year mod 400 =? 0)).

Definition daysIn (month year : Z) : Z :=
  if (month =? 2) && isLeap year then 29
  else if month =? 2 then 28
  else if (month =? 4) || (month =? 6) || (month =? 9) || (month =? 11) then 30
  else 31.

(** A parsed date: what [t.Year()], [t.Month()] and [t.Day()] give. *)
Record Date : Type := { Year : Z; Month : Z; Day : Z }.

(** [time.Parse("2006-01-02", value)]; [None] is the error. *)
Definition parseDate (value : string) : option Date :=
  match parseLongYear value with
  | None => None
  | Some (year, v1) =>
      match skipDash v1 with
      | None => None
      | Some v2 =>
          match getnumFixed v2 with
          | None => None
          | Some (month, v3) =>
              if (month <=? 0) || (12 <? month) then None
              else
                match skipDash v3 with
                | None => None
                | Some v4 =>
                    match getnumFixed v4 with
                    | None => None
                    | Some (day, v5) =>
                        if negb (isEmpty v5) then None
                        else if (day <? 1) || (daysIn month year <? day) then None
                        else Some {| Year := year; Month := month; Day := day |}
                    end
                end
          end
      end
  end.

(** [time.Parse("2006", value)]: the year, when the value is four digits
    and nothing else. *)
Definition parseYear (value : string) : option Z :=
  match parseLongYear value with
  | Some (year, rest) => if isEmpty rest then Some year else None
  | None => None
  end.

(** [t.Format("2006")]: the year on four digits, zero padded. *)
Definition formatYear (year : Z) : string :=
  let s := itoa year in
  if (0 <=? year) && (year <? 10000)
  then Repeat "0" (4 - String.length s) ++ s
  else s.

(** [t.Format("Jan")]. *)
Definition monthAbbrev (month : Z) : string :=
  nth (Z.to_nat (month - 1))
      ["Jan"; "Feb"; "Mar"; "Apr"; "May"; "Jun";
       "Jul"; "Aug"; "Sep"; "Oct"; "Nov"; "Dec"]
      EmptyString.

(* ================================================================= *)
(** ** pkg/display: the formatters *)

(** [createClickableLink(url, text)]. *)
Definition createClickableLink (url text : string) : string :=
  ESC ++ "]8;;" ++ url ++ ESC ++ Backslash ++ text ++ ESC ++ "]8;;" ++ ESC ++ Backslash.

(** [formatInfoLine(label, value, color)]. *)
Definition formatInfoLine (label value color : string) : string :=
  let minPadding := 2 in
  let maxLabelWidth := 12 in
  let labelWidth := len label in
  let padding := maxLabelWidth - labelWidth + minPadding in
  let padding := if padding <? minPadding then minPadding else padding in
  ColorBold ++ label ++ ColorReset ++ Repeat " " (Z.to_nat padding)
  ++ color ++ value ++ ColorReset.

(** [formatOrdinalDate(dateStr)]. *)
Definition formatOrdinalDate (dateStr : string) : string :=
  if isEmpty dateStr then "N/A"
  else
    match parseDate dateStr with
    | None =>
        match parseYear dateStr with
        | None => dateStr
        | Some year => formatYear year
        end
    | Some t =>
        let day := Day t in
        let month := monthAbbrev (Month t) in
        let year := Year t in
        let suffix :=
          if (11 <=? day) && (day <=? 13) then "th"
          else if Z.rem day 10 =? 1 then "st"
          else if Z.rem day 10 =? 2 then "nd"
          else if Z.rem day 10 =? 3 then "rd"
          else "th" in
        itoa day ++ suffix ++ " " ++ month ++ " " ++ itoa year
    end.

(** [int64] wrap-around. *)
Definition int64 (v : Z) : Z := (v + 2 ^ 63) mod 2 ^ 64 - 2 ^ 63.

(** [time.Duration(ms) * time.Millisecond]. *)
Definition millis (ms : Z) : Z := int64 (ms * 1000000).

(** [formatDuration(d)]. *)
Definition formatDuration (w : World) (d : Z) : string :=
  let minutes := intMinutes w d in
  let seconds := Z.rem (intSeconds w d) 60 in
  itoa minutes ++ ":" ++ fmt02d seconds.

(** [formatNumber(n)]. *)
Definition formatNumber (w : World) (n : Z) : string :=
  if 1000000 <=? n then fmtRatio1 w n 1000000 ++ "M"
  else if 1000 <=? n then fmtRatio1 w n 1000 ++ "K"
  else itoa n.

(** [formatBool(b)]. *)
Definition formatBool (b : bool) : string := if b then "Yes" else "No".

(** [formatString(s)]. *)
Definition formatString (s : string) : string := if isEmpty s then "N/A" else s.

(* ================================================================= *)
(** ** pkg/display: the info panels *)

(** The genre value of [DisplayTrack], [DisplayAlbum] and [DisplayArtist]
    (the same four lines in each): the joined genres, cut when longer than
    50 bytes. *)
Definition genreString (genres : list string) : string :=
  let genreString := Join genres ", " in
  if 50 <? len genreString
  then sliceTo genreString 47 ++ "..."
  else genreString.

(** [if len(genres) > 0 { infoLines = append(infoLines, ...) }]. *)
Definition appendGenres (infoLines genres : list string) : list string :=
  if 0 <? llen genres
  then (infoLines ++ [formatInfoLine "Genres" (genreString genres) ColorRed])%list
  else infoLines.

(** The genres of the record itself, or of its first artist when it has
    none, a client is given and the artist can be fetched. *)
Definition genresOrFallback (own : list string) (artists : list Artist)
    (client : option Client) : list string :=
  match own, artists, client with
  | [], first :: _, Some c =>
      match GetArtist c (ArtistID first) with
      | Ok artist => ArtistGenres artist
      | Err _ => own
      end
  | _, _, _ => own
  end.

(** The clickable artist names. *)
Definition artistNames (artists : list Artist) : list string :=
  map (fun artist => createClickableLink (Spotify (ArtistExternalURL artist)) (ArtistName artist))
      artists.

(** The header and at most five linked tracks, when there are tracks. *)
Definition appendTopTracks (infoLines : list string) (tracks : list Track) : list string :=
  if 0 <? llen tracks
  then
    let header := ColorBold ++ "Top Tracks" ++ ColorReset in
    let trackLine track :=
      ColorGreen
      ++ createClickableLink (Spotify (TrackExternalURL track)) (TrackName track)
      ++ ColorReset in
    (infoLines ++ [EmptyString; header] ++ map trackLine (firstn 5 tracks))%list
  else infoLines.

(** The lines of an image: rendered from the first image, or the
    placeholder when the record has no image. *)
Definition imageLinesOf (w : World) (renderer : ImageRenderer)
    (images : list SpotifyImage) : list string :=
  match images with
  | first :: _ => RenderImageLines w renderer (URL first)
  | [] => getPlaceholderLines renderer
  end.

(** The info lines of [DisplayTrack]. *)
Definition trackInfoLines (w : World) (track : Track) (client : option Client) : list string :=
  let duration := millis (TrackDuration track) in
  let genres := genresOrFallback (AlbumGenres (TrackAlbum track)) (TrackArtists track) client in
  let albumName :=
    createClickableLink (Spotify (AlbumExternalURL (TrackAlbum track)))
                        (AlbumName (TrackAlbum track)) in
  let infoLines :=
    [ formatInfoLine "Name" (TrackName track) ColorGreen;
      formatInfoLine "Artist" (Join (artistNames (TrackArtists track)) ", ") ColorYellow;
      formatInfoLine "Album" albumName ColorBlue;
      formatInfoLine "Duration" (formatDuration w duration) ColorWhite;
      formatInfoLine "Track" (itoa (TrackNumber track)) ColorCyan;
      formatInfoLine "Explicit" (formatBool (TrackExplicit track)) ColorRed;
      formatInfoLine "Released" (formatOrdinalDate (AlbumReleaseDate (TrackAlbum track))) ColorCyan;
      formatInfoLine "Popularity" (itoa (TrackPopularity track) ++ "%") ColorPurple ] in
  appendGenres infoLines genres.

(** The links of [DisplayTrack]. *)
Definition trackLinks (track : Track) : list string :=
  let links :=
    match AlbumImages (TrackAlbum track) with
    | first :: _ => [ColorBlue ++ createClickableLink (URL first) "Album Cover" ++ ColorReset]
    | [] => []
    end in
  let spotifyLink :=
    ColorGreen ++ createClickableLink (Spotify (TrackExternalURL track)) "Spotify" ++ ColorReset in
  (links ++ [spotifyLink])%list.

(** The first seven info lines of [DisplayAlbum]. *)
Definition albumBaseLines (w : World) (album : Album) : list string :=
  let totalDuration :=
    fold_left (fun total track => int64 (total + TrackDuration track))
              (AlbumTracksItems album) 0 in
  [ formatInfoLine "Name" (AlbumName album) ColorGreen;
    formatInfoLine "Artist" (Join (artistNames (AlbumArtists album)) ", ") ColorYellow;
    formatInfoLine "Type" (AlbumType album) ColorBlue;
    formatInfoLine "Released" (formatOrdinalDate (AlbumReleaseDate album)) ColorCyan;
    formatInfoLine "Tracks" (itoa (AlbumTotalTracks album)) ColorPurple;
    formatInfoLine "Duration" (formatDuration w (millis totalDuration)) ColorWhite;
    formatInfoLine "Popularity" (itoa (AlbumPopularity album) ++ "%") ColorPurple ].

(** [if len(album.Label) > 0 { ... }]. *)
Definition appendLabel (infoLines : list string) (label : string) : list string :=
  if 0 <? len label
  then (infoLines ++ [formatInfoLine "Label" (formatString label) ColorWhite])%list
  else infoLines.

(** The info lines of [DisplayAlbum]. *)
Definition albumInfoLines (w : World) (album : Album) (client : option Client) : list string :=
  let genres := genresOrFallback (AlbumGenres album) (AlbumArtists album) client in
  let infoLines := albumBaseLines w album in
  let infoLines := appendGenres infoLines genres in
  let infoLines := appendLabel infoLines (AlbumLabel album) in
  appendTopTracks infoLines (AlbumTracksItems album).

(** The links of [DisplayAlbum]. *)
Definition albumLinks (album : Album) : list string :=
  let links :=
    match AlbumImages album with
    | first :: _ => [ColorBlue ++ createClickableLink (URL first) "Album Cover" ++ ColorReset]
    | [] => []
    end in
  let spotifyLink :=
    ColorGreen ++ createClickableLink (Spotify (AlbumExternalURL album)) "Spotify" ++ ColorReset in
  (links ++ [spotifyLink])%list.

Definition okOrNil {A : Type} (r : Result A) : option A :=
  match r with
  | Ok a => Some a
  | Err _ => None
  end.

(** The info lines of [DisplayArtist]. *)
Definition artistInfoLines (w : World) (artist : Artist) (client : option Client) : list string :=
  let topTracks :=
    match client with
    | Some c => okOrNil (GetArtistTopTracks c (ArtistID artist))
    | None => None
    end in
  let albums :=
    match client with
    | Some c => okOrNil (GetArtistAlbums c (ArtistID artist) "album")
    | None => None
    end in
  let singles :=
    match client with
    | Some c => okOrNil (GetArtistAlbums c (ArtistID artist) "single")
    | None => None
    end in
  let infoLines :=
    [ formatInfoLine "Name" (ArtistName artist) ColorGreen;
      formatInfoLine "Followers" (formatNumber w (Total (ArtistFollowers artist))) ColorYellow;
      formatInfoLine "Popularity" (itoa (ArtistPopularity artist) ++ "%") ColorPurple ] in
  let infoLines := appendGenres infoLines (ArtistGenres artist) in
  let infoLines :=
    match albums with
    | Some r => (infoLines ++ [formatInfoLine "Albums" (itoa (AlbumTotal r)) ColorGreen])%list
    | None => infoLines
    end in
  let infoLines :=
    match singles with
    | Some r => (infoLines ++ [formatInfoLine "Singles" (itoa (AlbumTotal r)) ColorYellow])%list
    | None => infoLines
    end in
  match topTracks with
  | Some r => appendTopTracks infoLines (TopTracks r)
  | None => infoLines
  end.

(** The links of [DisplayArtist]. *)
Definition artistLinks (artist : Artist) : list string :=
  let links :=
    [ColorGreen ++ createClickableLink (Spotify (ArtistExternalURL artist)) "Spotify"
     ++ ColorReset] in
  match ArtistImages artist with
  | first :: _ =>
      let photoLink :=
        ColorBlue ++ createClickableLink (URL first) "Artist Photo" ++ ColorReset in
      (links ++ [photoLink])%list
  | [] => links
  end.

(* ================================================================= *)
(** ** pkg/display: the side-by-side composition *)

(** The filler printed where the image has no line. *)
Definition blankImage : string := Repeat " " 46.

(** The gap between the image and the panel. *)
Definition gap : string := "   ".

(** [maxLines - 2], where [maxLines] is the larger of the two lengths. *)
Definition targetLinesOf (imageLines infoLines : list string) : Z :=
  let maxLines := llen imageLines in
  let maxLines := if maxLines <? llen infoLines then llen infoLines else maxLines in
  maxLines - 2.

(** The loop that classifies the links: the last link that contains
    [spotify] in lower case, and the last one that does not. *)
Definition classifyLinks (w : World) (links : list string) : string * string :=
  fold_left
    (fun (found : string * string) link =>
       if Contains (strings_ToLower w link) "spotify"
       then (link, snd found)
       else (fst found, link))
    links (EmptyString, EmptyString).

(** The second half of [displaySideBySideWithLinks]: the link row and the
    image lines after it, or the remaining image lines when there is no
    link. *)
Definition linkSection (w : World) (imageLines links : list string)
    (targetLines : Z) : Proc unit :=
  if 0 <? llen links then
    imageLine <- (if targetLines <? llen imageLines
                  then index imageLines targetLines
                  else ret blankImage) ;;
    let spotifyLink := fst (classifyLinks w links) in
    let imageLink := snd (classifyLinks w links) in
    spotifyLink <- (if isEmpty spotifyLink && (0 <? llen links)
                    then index links 0 else ret spotifyLink) ;;
    imageLink <- (if isEmpty imageLink && (1 <? llen links)
                  then index links 1 else ret imageLink) ;;
    let linkLine :=
      if negb (isEmpty spotifyLink) && negb (isEmpty imageLink)
      then spotifyLink ++ gap ++ imageLink
      else if negb (isEmpty spotifyLink) then spotifyLink
      else imageLink in
    Print (imageLine ++ gap ++ linkLine ++ NL) ;;
    forRange (targetLines + 1) (llen imageLines)
      (fun i => line <- index imageLines i ;; Print (line ++ gap ++ NL))
  else
    forRange targetLines (llen imageLines)
      (fun i => line <- index imageLines i ;; Print (line ++ gap ++ NL)).

(** [displaySideBySideWithLinks(imageLines, infoLines, links)]. *)
Definition displaySideBySideWithLinks (w : World)
    (imageLines infoLines links : list string) : Proc unit :=
  let targetLines := targetLinesOf imageLines infoLines in
  let infoLines := padLines infoLines targetLines EmptyString in
  forRange 0 targetLines
    (fun i =>
       if i <? llen imageLines
       then imageLine <- index imageLines i ;;
            infoLine <- index infoLines i ;;
            Print (imageLine ++ gap ++ infoLine ++ NL)
       else infoLine <- index infoLines i ;;
            Print (blankImage ++ gap ++ infoLine ++ NL)) ;;
  linkSection w imageLines links targetLines.

(** [DisplayTrack(track, client, imageSize)]. *)
Definition DisplayTrack (w : World) (track : Track) (client : option Client)
    (imageSize : Z) : Proc unit :=
  let renderer := NewImageRenderer imageSize in
  let imageLines := imageLinesOf w renderer (AlbumImages (TrackAlbum track)) in
  displaySideBySideWithLinks w imageLines (trackInfoLines w track client) (trackLinks track).

(** [DisplayAlbum(album, client, imageSize)]. *)
Definition DisplayAlbum (w : World) (album : Album) (client : option Client)
    (imageSize : Z) : Proc unit :=
  let renderer := NewImageRenderer imageSize in
  let imageLines := imageLinesOf w renderer (AlbumImages album) in
  displaySideBySideWithLinks w imageLines (albumInfoLines w album client) (albumLinks album).

(** [DisplayArtist(artist, client, imageSize)]. *)
Definition DisplayArtist (w : World) (artist : Artist) (client : option Client)
    (imageSize : Z) : Proc unit :=
  let renderer := NewImageRenderer imageSize in
  let imageLines := imageLinesOf w renderer (ArtistImages artist) in
  displaySideBySideWithLinks w imageLines (artistInfoLines w artist client) (artistLinks artist).

(** *** The composition as the specification words it

    The target is the image-line count minus 2; the info panel is padded
    to it, and the lines below the target are printed as image line, gap,
    info line.  The link row and what follows are those of the code. *)
Definition specComposition (w : World) (imageLines infoLines links : list string)
    : Proc unit :=
  let H := llen imageLines in
  let padded := padLines infoLines (H - 2) EmptyString in
  forRange 0 (H - 2)
    (fun i =>
       imageLine <- index imageLines i ;;
       infoLine <- index padded i ;;
       Print (imageLine ++ gap ++ infoLine ++ NL)) ;;
  linkSection w imageLines links (H - 2).

(** The rows the main loop prints for a target: row [i] is the image
    line [i], or the filler when the image has none, then the gap and the
    info line [i]. *)
Definition mainRows (imageLines infoLines : list string) (targetLines : Z) : list string :=
  map (fun i =>
         (if i <? llen imageLines
          then nth (Z.to_nat i) imageLines EmptyString
          else blankImage)
         ++ gap ++ nth (Z.to_nat i) infoLines EmptyString ++ NL)
      (zrange 0 targetLines).

(* ================================================================= *)
(** ** pkg/config and cmd: the search command *)

(** [config.GetConfig()]. *)
Definition GetConfig (w : World) : Result Config := viper_Unmarshal w.

(** [config.HasCredentials()]. *)
Definition HasCredentials (w : World) : bool :=
  match GetConfig w with
  | Err _ => false
  | Ok config =>
      negb (isEmpty (SpotifyClientID config)) && negb (isEmpty (SpotifyClientSecret config))
  end.

(** The clamp of the search command on the [--size] flag. *)
Definition clampImageSize (imageSize : Z) : Z :=
  let imageSize := if imageSize <? 15 then 15 else imageSize in
  if 35 <? imageSize then 35 else imageSize.

(** [searchAuto(query)]: track, then album, then artist. *)
Definition searchAuto (w : World) (client : Client) (imageSize : Z) (query : string)
    : Proc unit :=
  let tryArtist : Proc unit :=
    match Search client query "artist" with
    | Ok {| ArtistsFound := first :: _ |} =>
        match GetArtist client (ArtistID first) with
        | Ok artist => DisplayArtist w artist (Some client) imageSize
        | Err _ => Print ("No results found for: " ++ query ++ NL)
        end
    | _ => Print ("No results found for: " ++ query ++ NL)
    end in
  let tryAlbum : Proc unit :=
    match Search client query "album" with
    | Ok {| AlbumsFound := first :: _ |} =>
        match GetAlbum client (AlbumID first) with
        | Ok album => DisplayAlbum w album (Some client) imageSize
        | Err _ => tryArtist
        end
    | _ => tryArtist
    end in
  match Search client query "track" with
  | Ok {| TracksFound := first :: _ |} => DisplayTrack w first (Some client) imageSize
  | _ => tryAlbum
  end.

(** [searchSpecific(query, sType)]. *)
Definition searchSpecific (w : World) (client : Client) (imageSize : Z)
    (query sType : string) : Proc unit :=
  match Search client query sType with
  | Err err =>
      Print ("Search failed: " ++ err ++ NL) ;;
      os_Exit 1
  | Ok result =>
      if String.eqb sType "track" then
        match TracksFound result with
        | first :: _ => DisplayTrack w first (Some client) imageSize
        | [] => Print ("No tracks found for: " ++ query ++ NL)
        end
      else if String.eqb sType "album" then
        match AlbumsFound result with
        | first :: _ =>
            match GetAlbum client (AlbumID first) with
            | Ok album => DisplayAlbum w album (Some client) imageSize
            | Err err => Print ("Failed to get album details: " ++ err ++ NL)
            end
        | [] => Print ("No albums found for: " ++ query ++ NL)
        end
      else if String.eqb sType "artist" then
        match ArtistsFound result with
        | first :: _ =>
            match GetArtist client (ArtistID first) with
            | Ok artist => DisplayArtist w artist (Some client) imageSize
            | Err err => Print ("Failed to get artist details: " ++ err ++ NL)
            end
        | [] => Print ("No artists found for: " ++ query ++ NL)
        end
      else ret tt
  end.

(** The sequences that hide and show the cursor. *)
Definition hideCursor : string := ESC ++ "[?25l".
Definition showCursor : string := ESC ++ "[?25h".

(** What the search command does once the cursor is hidden: the body that
    runs under [defer fmt.Print("\033[?25h")]. *)
Definition searchBody (w : World) (client : Client) (query searchType : string)
    (imageSize : Z) : Proc unit :=
  Print NL ;;
  let imageSize := clampImageSize imageSize in
  (if String.eqb searchType "auto"
   then searchAuto w client imageSize query
   else searchSpecific w client imageSize query searchType) ;;
  Print (ESC ++ "[F" ++ ESC ++ "[K" ++ NL).

(** [searchCmd.Run] on the query, with the flags [--type] and [--size]. *)
Definition searchCmd (w : World) (query searchType : string) (imageSize : Z) : Proc unit :=
  if negb (HasCredentials w) then
    Print ("No Spotify credentials found!" ++ NL) ;;
    Print ("Run 'mufetch auth' to set up your API credentials." ++ NL) ;;
    os_Exit 1
  else
    match GetConfig w with
    | Err err =>
        Print ("Failed to load config: " ++ err ++ NL) ;;
        os_Exit 1
    | Ok cfg =>
        let client := NewClient w (SpotifyClientID cfg) (SpotifyClientSecret cfg) in
        Print hideCursor ;;
        defer (Print showCursor) (searchBody w client query searchType imageSize)
    end.

(* ================================================================= *)
(** ** Two concrete worlds

    [quietWorld] answers every request: the cover is a 2x2 image, the
    resampler picks the nearest source pixel, the catalogue knows one
    artist.  [failingWorld] differs in the catalogue only: every search is
    refused. *)

Definition lowerByte (c : ascii) : ascii :=
  let n := byteOf c in
  if (65 <=? n) && (n <=? 90) then ascii_of_N (Z.to_N (n + 32)) else c.

Fixpoint lowerASCII (s : string) : string :=
  match s with
  | EmptyString => EmptyString
  | String c rest => String (lowerByte c) (lowerASCII rest)
  end.

Definition coverImage : Image :=
  {| Bounds := {| Min := {| X := 0; Y := 0 |}; Max := {| X := 2; Y := 2 |} |};
     At := fun x y =>
             {| R := 65535 * x; G := 32768 * y; B := 4660; A := 65535 |} |}.

Definition nearestResize (img : Image) (width height : Z) : Image :=
  let b := Bounds img in
  {| Bounds := {| Min := {| X := 0; Y := 0 |}; Max := {| X := width; Y := height |} |};
     At := fun x y =>
             At img (X (Min b) + x * Dx b / width) (Y (Min b) + y * Dy b / height) |}.

Definition coverURL : string := "https://i.scdn.co/image/cover".

Definition someArtist : Artist :=
  {| ArtistID := "a1";
     ArtistName := "Tame Impala";
     ArtistImages := [];
     ArtistGenres := ["neo-psychedelic"; "modern rock"];
     ArtistPopularity := 80;
     ArtistFollowers := {| Total := 1500 |};
     ArtistExternalURL := {| Spotify := "https://open.spotify.com/artist/a1" |} |}.

Definition someAlbum : Album :=
  mkAlbum "b1" "Currents" [someArtist]
          [{| URL := coverURL; ImgHeight := 640; ImgWidth := 640 |}]
          "2015-07-17" 13 [] 82 "album" "Modular" 
          {| Spotify := "https://open.spotify.com/album/b1" |} [].

Definition answeringClient : Client :=
  {| Search := fun _ _ =>
       Ok {| TracksFound := []; AlbumsFound := [someAlbum]; ArtistsFound := [someArtist] |};
     GetAlbum := fun _ => Ok someAlbum;
     GetArtist := fun _ => Ok someArtist;
     GetArtistTopTracks := fun _ => Ok {| TopTracks := [] |};
     GetArtistAlbums := fun _ _ => Ok {| AlbumItems := []; AlbumTotal := 4 |} |}.

Definition refusingClient : Client :=
  {| Search := fun _ _ => Err "search failed: 401 Unauthorized - ";
     GetAlbum := fun _ => Err "failed to get album: 401 Unauthorized";
     GetArtist := fun _ => Err "failed to get artist: 401 Unauthorized";
     GetArtistTopTracks := fun _ => Err "failed to get top tracks: 401 Unauthorized";
     GetArtistAlbums := fun _ _ => Err "failed to get artist albums: 401 Unauthorized" |}.

Definition worldWith (client : Client) : World :=
  {| http_Get := fun url => if String.eqb url coverURL then Ok "cover bytes" else Err "no such host";
     image_Decode := fun _ => Ok coverImage;
     imaging_Resize := nearestResize;
     strings_ToLower := lowerASCII;
     intMinutes := fun d => Z.quot d 60000000000;
     intSeconds := fun d => Z.quot d 1000000000;
     fmtRatio1 := fun n d => itoa (Z.quot n d) ++ "." ++ itoa (Z.rem (Z.quot (10 * n) d) 10);
     viper_Unmarshal := Ok {| SpotifyClientID := "0123456789abcdef";
                              SpotifyClientSecret := "fedcba9876543210" |};
     NewClient := fun _ _ => client |}.

Definition quietWorld : World := worldWith answeringClient.

Definition failingWorld : World := worldWith refusingClient.

(* ================================================================= *)
(** ** Auxiliary notions of the statements *)

(** Bytes below [0x40] are parameters of a CSI sequence: they do not end it. *)
Definition csiParams (s : string) : Prop := scan InCSI s = (InCSI, 0%nat).

(** The ten digits. *)
Definition digitChars : list ascii :=
  ["0"; "1"; "2"; "3"; "4"; "5"; "6"; "7"; "8"; "9"]%char.

(** The year of four digits is printed back as these digits. *)
Definition yearRoundTrips (a b c d : ascii) : bool :=
  String.eqb
    (formatYear (1000 * digitVal a + 100 * digitVal b + 10 * digitVal c + digitVal d))
    (String a (String b (String c (String d EmptyString)))).

(** A line that starts as the genre line does: the label [Genres] in bold. *)
Definition isGenreLine (line : string) : bool := String.prefix (ColorBold ++ "Genres") line.

(* ================================================================= *)
(** ** cmd: the auth command *)

(** [config.SetCredentials(clientID, clientSecret)] sets the two keys and
    writes the configuration file with [viper.WriteConfig], which leaves
    the process: it is the parameter [SetCredentials] of the command. *)

(** The lines the command prints before it asks for the credentials. *)
Definition authBanner : list string :=
  [ "Spotify API Authentication Setup" ++ NL;
    NL;
    "To get your Spotify API credentials:" ++ NL;
    "1. Go to: https://developer.spotify.com/dashboard" ++ NL;
    "2. Log in with your Spotify account" ++ NL;
    "3. Click 'Create an App'" ++ NL;
    "4. Fill in app name and description" ++ NL;
    "5. Copy your Client ID and Client Secret" ++ NL;
    NL ].

Definition authErrorLine : string :=
  "Error: Both Client ID and Client Secret are required!" ++ NL.

Definition authWarningLine : string :=
  "Warning: Credentials seem too short. Please verify they are correct." ++ NL.

(** [authCmd.Run]: [clientID] and [clientSecret] are what the two calls of
    [fmt.Scanln] leave in the variables (the empty string when nothing was
    read). *)
Definition authCmd (SetCredentials : string -> string -> Result unit)
    (clientID clientSecret : string) : Proc unit :=
  forEach authBanner Print ;;
  Print "Enter your Spotify Client ID: " ;;
  Print "Enter your Spotify Client Secret: " ;;
  (if isEmpty clientID || isEmpty clientSecret
   then Print authErrorLine ;; os_Exit 1
   else ret tt) ;;
  (if (len clientID <? 10) || (len clientSecret <? 10)
   then Print authWarningLine
   else ret tt) ;;
  match SetCredentials clientID clientSecret with
  | Err err =>
      Print ("Failed to save credentials: " ++ err ++ NL) ;;
      os_Exit 1
  | Ok _ =>
      Print ("Credentials saved successfully!" ++ NL) ;;
      Print ("You can now use 'mufetch search <query>' to search for music." ++ NL)
  end.

(* ================================================================= *)
(** ** pkg/spotify: the client and its token

    The client of the Go package holds the credentials, the access token
    and the instant the token expires.  Instants are nanoseconds counted
    from the zero [time.Time], so the [TokenExpiry] of a new client is 0.
    The network, the JSON decoder and the base64 encoder are the fields of
    [Net]. *)

Module SpotifyClient.

Record TokenResponse : Type := {
  Token : string;
  TokenType : string;
  ExpiresIn : Z
}.

Record State : Type := {
  ClientID : string;
  ClientSecret : string;
  AccessToken : string;
  TokenExpiry : Z
}.

Record Request : Type := {
  Method : string;
  RequestURL : string;
  Header : list (string * string);
  RequestBody : string
}.

Record Response : Type := {
  StatusCode : Z;
  Status : string;
  Body : string
}.

Record Net : Type := {
  (** [client.Do(req)]. *)
  Do : Request -> Result Response;
  (** [http.NewRequest] refuses a URL it cannot parse. *)
  parseURL : string -> Result unit;
  (** [base64.StdEncoding.EncodeToString]. *)
  base64 : string -> string;
  (** [json.NewDecoder(body).Decode] into the three records. *)
  decodeToken : string -> Result TokenResponse;
  decodeAlbum : string -> Result Album;
  decodeArtist : string -> Result Artist
}.

(** [NewClient(clientID, clientSecret)]. *)
Definition NewClient (clientID clientSecret : string) : State :=
  {| ClientID := clientID;
     ClientSecret := clientSecret;
     AccessToken := EmptyString;
     TokenExpiry := 0 |}.

(** The request [authenticate] posts to the token endpoint;
    [http.NewRequest] does not fail on this constant URL. *)
Definition tokenRequest (c : State) (net : Net) : Request :=
  let auth := base64 net (ClientID c ++ ":" ++ ClientSecret c) in
  {| Method := "POST";
     RequestURL := "https://accounts.spotify.com/api/token";
     Header := [ ("Authorization", "Basic " ++ auth);
                 ("Content-Type", "application/x-www-form-urlencoded") ];
     RequestBody := "grant_type=client_credentials" |}.

(** [c.authenticate()].  [now] is the instant of the first [time.Now()]
    and [later] the instant of the second, taken once the answer is
    decoded. *)
Definition authenticate (net : Net) (now later : Z) (c : State) : Result unit * State :=
  if now <? TokenExpiry c then (Ok tt, c)
  else
    match Do net (tokenRequest c net) with
    | Err err => (Err err, c)
    | Ok resp =>
        if negb (StatusCode resp =? 200)
        then (Err ("authentication failed: " ++ Status resp), c)
        else
          match decodeToken net (Body resp) with
          | Err err => (Err err, c)
          | Ok tokenResp =>
              (Ok tt,
               {| ClientID := ClientID c;
                  ClientSecret := ClientSecret c;
                  AccessToken := Token tokenResp;
                  TokenExpiry := later + int64 (ExpiresIn tokenResp * 1000000000) |})
          end
    end.

(** The [GET] of [GetAlbum] and [GetArtist]: authenticate, build the
    request with the bearer token, send it, refuse any status but 200 and
    decode the body. *)
Definition getRecord {A : Type} (net : Net) (now later : Z) (c : State)
    (reqURL failure : string) (decode : string -> Result A) : Result A * State :=
  match authenticate net now later c with
  | (Err err, c1) => (Err err, c1)
  | (Ok _, c1) =>
      match parseURL net reqURL with
      | Err err => (Err err, c1)
      | Ok _ =>
          let req :=
            {| Method := "GET";
               RequestURL := reqURL;
               Header := [ ("Authorization", "Bearer " ++ AccessToken c1) ];
               RequestBody := EmptyString |} in
          match Do net req with
          | Err err => (Err err, c1)
          | Ok resp =>
              if negb (StatusCode resp =? 200)
              then (Err (failure ++ Status resp), c1)
              else (decode (Body resp), c1)
          end
      end
  end.

(** [c.GetAlbum(albumID)]. *)
Definition GetAlbum (net : Net) (now later : Z) (c : State) (albumID : string)
    : Result Album * State :=
  getRecord net now later c ("https://api.spotify.com/v1/albums/" ++ albumID)
            "failed to get album: " (decodeAlbum net).

(** [c.GetArtist(artistID)]. *)
Definition GetArtist (net : Net) (now later : Z) (c : State) (artistID : string)
    : Result Artist * State :=
  getRecord net now later c ("https://api.spotify.com/v1/artists/" ++ artistID)
            "failed to get artist: " (decodeArtist net).

End SpotifyClient.

(* ================================================================= *)
(** ** Further notions of the statements *)

(** Every byte is a printable ASCII character. *)
Fixpoint printable (s : string) : bool :=
  match s with
  | EmptyString => true
  | String c rest => (32 <=? byteOf c) && (byteOf c <? 127) && printable rest
  end.

(** No byte is [ESC] or [BEL]: the string cannot end an OSC sequence. *)
Fixpoint plainURL (s : string) : bool :=
  match s with
  | EmptyString => true
  | String c rest => negb (byteOf c =? 27) && negb (byteOf c =? 7) && plainURL rest
  end.

(** The text ends with a newline. *)
Fixpoint endsWithNL (s : string) : bool :=
  match s with
  | EmptyString => false
  | String c EmptyString => byteOf c =? 10
  | String _ rest => endsWithNL rest
  end.

(** The string is two digits. *)
Definition twoDigits (s : string) : bool :=
  match s with
  | String a (String b EmptyString) => isDigit a && isDigit b
  | _ => false
  end.

(** The link line of the link row, for a list of links that is not
    empty: the link classified as the catalogue's first, then the other. *)
Definition linkLineOf (w : World) (links : list string) : string :=
  let spotifyLink := fst (classifyLinks w links) in
  let imageLink := snd (classifyLinks w links) in
  let spotifyLink :=
    if isEmpty spotifyLink && (0 <? llen links)
    then nth 0 links EmptyString else spotifyLink in
  let imageLink :=
    if isEmpty imageLink && (1 <? llen links)
    then nth 1 links EmptyString else imageLink in
  if negb (isEmpty spotifyLink) && negb (isEmpty imageLink)
  then spotifyLink ++ gap ++ imageLink
  else if negb (isEmpty spotifyLink) then spotifyLink
  else imageLink.

(** What [linkSection] prints for a target that is not negative. *)
Definition linkRows (w : World) (imageLines links : list string) (targetLines : Z)
    : list string :=
  if 0 <? llen links
  then ((if targetLines <? llen imageLines
         then nth (Z.to_nat targetLines) imageLines EmptyString
         else blankImage) ++ gap ++ linkLineOf w links ++ NL)
       :: map (fun i => nth (Z.to_nat i) imageLines EmptyString ++ gap ++ NL)
              (zrange (targetLines + 1) (llen imageLines))
  else map (fun i => nth (Z.to_nat i) imageLines EmptyString ++ gap ++ NL)
           (zrange targetLines (llen imageLines)).

(** A computation that only adds to the output. *)
Definition extends {A : Type} (p : Proc A) : Prop :=
  forall out, exists more, snd (p out) = (out ++ more)%list.

(** A network that is never reached. *)
Definition deadNet : SpotifyClient.Net :=
  {| SpotifyClient.Do := fun _ => Err "dial tcp: no route to host";
     SpotifyClient.parseURL := fun _ => Ok tt;
     SpotifyClient.base64 := fun s => s;
     SpotifyClient.decodeToken := fun _ => Err "EOF";
     SpotifyClient.decodeAlbum := fun _ => Err "EOF";
     SpotifyClient.decodeArtist := fun _ => Err "EOF" |}.

(** A network whose token endpoint grants a token for one hour and whose
    catalogue knows the artist of the two worlds. *)
Definition liveNet : SpotifyClient.Net :=
  {| SpotifyClient.Do := fun req =>
       if String.eqb (SpotifyClient.Method req) "POST"
       then Ok {| SpotifyClient.StatusCode := 200;
                  SpotifyClient.Status := "200 OK";
                  SpotifyClient.Body := "token" |}
       else if String.eqb (SpotifyClient.RequestURL req) "https://api.spotify.com/v1/artists/a1"
       then Ok {| SpotifyClient.StatusCode := 200;
                  SpotifyClient.Status := "200 OK";
                  SpotifyClient.Body := "artist" |}
       else Ok {| SpotifyClient.StatusCode := 404;
                  SpotifyClient.Status := "404 Not Found";
                  SpotifyClient.Body := EmptyString |};
     SpotifyClient.parseURL := fun _ => Ok tt;
     SpotifyClient.base64 := fun s => s;
     SpotifyClient.decodeToken := fun _ =>
       Ok {| SpotifyClient.Token := "BQDtoken";
             SpotifyClient.TokenType := "Bearer";
             SpotifyClient.ExpiresIn := 3600 |};
     SpotifyClient.decodeAlbum := fun _ => Err "EOF";
     SpotifyClient.decodeArtist := fun _ => Ok someArtist |}.

(** A track of the album of the two worlds. *)
Definition someTrack : Track :=
  mkTrack "t1" "Let It Happen" [someArtist] someAlbum 467000 78 1 false
          {| Spotify := "https://open.spotify.com/track/t1" |}.

(* ================================================================= *)
(** * Properties *)

(** ** Strings, ranges and widths *)

Lemma length_append (a b : string) :
  String.length (a ++ b) = (String.length a + String.length b)%nat.
Proof.
  induction a as [|ch a IH]; simpl; [reflexivity | now rewrite IH].
Qed.

Lemma zrange_length (lo hi : Z) : List.length (zrange lo hi) = Z.to_nat (hi - lo).
Proof.
  unfold zrange. now rewrite length_map, length_seq.
Qed.

Lemma zrange_bounds (lo hi i : Z) : In i (zrange lo hi) -> lo <= i < hi.
Proof.
  unfold zrange. rewrite in_map_iff. intros [k [<- Hk]].
  apply in_seq in Hk. lia.
Qed.

Lemma scan_append (st : TermState) (a b : string) :
  scan st (a ++ b)
  = (fst (scan (fst (scan st a)) b),
     (snd (scan st a) + snd (scan (fst (scan st a)) b))%nat).
Proof.
  revert st. induction a as [|ch a IH]; intros st; simpl.
  - now destruct (scan st b).
  - destruct (termStep st ch) as [st1 k]. rewrite IH.
    destruct (scan st1 a) as [st2 m]. simpl.
    destruct (scan st2 b) as [st3 n]. simpl. f_equal. lia.
Qed.

Lemma csiParams_uint (d : Decimal.uint) : csiParams (NilEmpty.string_of_uint d).
Proof.
  unfold csiParams.
  induction d; simpl; try reflexivity;
    match goal with
    | IH : scan InCSI _ = _ |- _ => unfold termStep; simpl; now rewrite IH
    end.
Qed.

Lemma csiParams_itoa (n : Z) : csiParams (itoa n).
Proof.
  unfold itoa, NilZero.string_of_int, NilZero.string_of_uint.
  destruct (Z.to_int n) as [d|d]; destruct d; try reflexivity;
    try apply (csiParams_uint (_ _));
    unfold csiParams; simpl;
    match goal with
    | |- context [NilEmpty.string_of_uint ?d] =>
        now rewrite (csiParams_uint d)
    end.
Qed.

Lemma scan_csi_itoa (n : Z) (rest : string) :
  scan InCSI (itoa n ++ rest) = scan InCSI rest.
Proof.
  rewrite scan_append, (csiParams_itoa n). simpl.
  now destruct (scan InCSI rest).
Qed.

Lemma blockCell_width (c : Color) : scan Text (blockCell c) = (Text, 2%nat).
Proof.
  unfold blockCell.
  set (r := uint8 _). set (g := uint8 _). set (b := uint8 _).
  cbn -[itoa].
  do 3 (rewrite scan_csi_itoa; cbn -[itoa]).
  reflexivity.
Qed.

(** A line built from cells, as the inner loop builds it. *)
Lemma cells_width (cells : list Color) (init : string) (k : nat) :
  scan Text init = (Text, k) ->
  scan Text (fold_left (fun line c => line ++ blockCell c) cells init)
  = (Text, (k + 2 * List.length cells)%nat).
Proof.
  revert init k. induction cells as [|c cells IH]; intros init k Hinit; simpl.
  - rewrite Hinit. f_equal. lia.
  - rewrite (IH (init ++ blockCell c) (k + 2)%nat).
    + f_equal. lia.
    + rewrite scan_append, Hinit. cbn [fst snd]. now rewrite blockCell_width.
Qed.

Lemma fold_left_map_arg {A B C : Type} (f : C -> B -> C) (g : A -> B)
    (xs : list A) (init : C) :
  fold_left (fun acc x => f acc (g x)) xs init = fold_left f (map g xs) init.
Proof.
  revert init. induction xs as [|x xs IH]; intros init; simpl; [reflexivity | apply IH].
Qed.

Lemma fold_left_snoc {A B : Type} (f : A -> B) (xs : list A) (init : list B) :
  fold_left (fun acc x => (acc ++ [f x])%list) xs init = (init ++ map f xs)%list.
Proof.
  revert init. induction xs as [|x xs IH]; intros init; simpl.
  - now rewrite app_nil_r.
  - rewrite IH, <- app_assoc. reflexivity.
Qed.

Lemma blockArtLine_cells (resized : Image) (y : Z) :
  blockArtLine resized y
  = fold_left (fun line c => line ++ blockCell c)
      (map (fun x => At resized x y)
           (zrange (X (Min (Bounds resized))) (X (Max (Bounds resized)))))
      " ".
Proof.
  unfold blockArtLine.
  apply (fold_left_map_arg (fun line c => line ++ blockCell c) (fun x => At resized x y)).
Qed.

Lemma getBlockArtLines_rows (w : World) (r : ImageRenderer) (img : Image) :
  getBlockArtLines w r img
  = map (blockArtLine (imaging_Resize w img (width r) (height r)))
        (zrange (Y (Min (Bounds (imaging_Resize w img (width r) (height r)))))
                (Y (Max (Bounds (imaging_Resize w img (width r) (height r)))))).
Proof.
  unfold getBlockArtLines. now rewrite fold_left_snoc.
Qed.

Lemma quietWorld_resizes (client : Client) : ResizeContract (worldWith client).
Proof. intros img width height _ _ _ _. reflexivity. Qed.

(* ================================================================= *)
(** ** The image renderer *)

(** C1.  For a grid size [S] in [15..35] and an image that was downloaded
    and decoded (and is not empty, which the resampling library requires
    to return the requested size), [RenderImageLines] returns exactly [S]
    lines; each is the padding space followed by [S] cells, and shows
    [1 + 2*S] characters once the escape sequences are left out. *)
Theorem RenderImageLines_block_art_size
    (w : World) (S : Z) (imageURL : string) (img : Image) :
  ResizeContract w ->
  15 <= S <= 35 ->
  isEmpty imageURL = false ->
  downloadImage w imageURL = Ok img ->
  0 < Dx (Bounds img) -> 0 < Dy (Bounds img) ->
  llen (RenderImageLines w (NewImageRenderer S) imageURL) = S /\
  Forall (fun line =>
            Z.of_nat (visibleWidth line) = 1 + 2 * S /\
            exists cells : list Color,
              llen cells = S /\
              line = fold_left (fun l c => l ++ blockCell c) cells " ")
         (RenderImageLines w (NewImageRenderer S) imageURL).
Proof.
  intros Hresize HS Hurl Hget Hdx Hdy.
  unfold RenderImageLines. rewrite Hurl, Hget, getBlockArtLines_rows.
  cbn [width height NewImageRenderer].
  rewrite (Hresize img S S) by lia. cbn [X Y Min Max].
  split.
  - unfold llen. rewrite length_map, zrange_length. lia.
  - apply Forall_forall. intros line Hin.
    apply in_map_iff in Hin. destruct Hin as [y [<- _]].
    rewrite blockArtLine_cells, (Hresize img S S) by lia. cbn [X Y Min Max].
    set (cells := map _ (zrange 0 S)).
    assert (Hlen : List.length cells = Z.to_nat S).
    { unfold cells. now rewrite length_map, zrange_length, Z.sub_0_r. }
    split.
    + unfold visibleWidth.
      rewrite (cells_width cells " " 1%nat) by reflexivity.
      cbn [snd]. rewrite Hlen. lia.
    + exists cells. split; [unfold llen; rewrite Hlen; lia | reflexivity].
Qed.

(** C1 at the grid size 15 in [quietWorld]. *)
Lemma RenderImageLines_block_art_size_witness :
  llen (RenderImageLines quietWorld (NewImageRenderer 15) coverURL) = 15 /\
  Forall (fun line =>
            Z.of_nat (visibleWidth line) = 1 + 2 * 15 /\
            exists cells : list Color,
              llen cells = 15 /\
              line = fold_left (fun l c => l ++ blockCell c) cells " ")
         (RenderImageLines quietWorld (NewImageRenderer 15) coverURL).
Proof.
  apply (RenderImageLines_block_art_size quietWorld 15 coverURL coverImage).
  - apply quietWorld_resizes.
  - lia.
  - reflexivity.
  - reflexivity.
  - reflexivity.
  - reflexivity.
Defined.

(** C3.  When the image URL is empty, or the download fails, or the body
    does not decode, the renderer returns the placeholder: the 8 lines of
    the box followed by 12 lines of 31 spaces, 20 lines in all, whatever
    the grid size. *)
Theorem RenderImageLines_placeholder (w : World) (size : Z) (imageURL : string) :
  imageURL = EmptyString
  \/ (exists e, http_Get w imageURL = Err e)
  \/ (exists body e, http_Get w imageURL = Ok body /\ image_Decode w body = Err e) ->
  RenderImageLines w (NewImageRenderer size) imageURL
  = (placeholderBox ++ List.repeat (Repeat " " 31) 12)%list
  /\ List.length placeholderBox = 8%nat
  /\ List.length (RenderImageLines w (NewImageRenderer size) imageURL) = 20%nat.
Proof.
  intros H.
  assert (Hval : RenderImageLines w (NewImageRenderer size) imageURL
                 = (placeholderBox ++ List.repeat (Repeat " " 31) 12)%list).
  { unfold RenderImageLines, downloadImage.
    destruct H as [-> | [[e He] | [body [e [Hb He]]]]].
    - reflexivity.
    - rewrite He. now destruct (isEmpty imageURL).
    - rewrite Hb, He. now destruct (isEmpty imageURL). }
  rewrite Hval. repeat split.
Qed.

(** C3 in [quietWorld], at a URL that cannot be fetched and the grid size 35. *)
Lemma RenderImageLines_placeholder_witness :
  RenderImageLines quietWorld (NewImageRenderer 35) "https://i.scdn.co/image/gone"
  = (placeholderBox ++ List.repeat (Repeat " " 31) 12)%list
  /\ List.length placeholderBox = 8%nat
  /\ List.length (RenderImageLines quietWorld (NewImageRenderer 35)
                    "https://i.scdn.co/image/gone") = 20%nat.
Proof.
  apply (RenderImageLines_placeholder quietWorld 35 "https://i.scdn.co/image/gone").
  right. left. exists "no such host". reflexivity.
Defined.

(** C4, evaluated on the placeholder.  The 8 lines of the box show 34
    characters (the padding space and the 33 characters of the box) and the
    12 padding lines show 31: the lines of the placeholder do not all have
    the same rendered width. *)
Theorem placeholder_widths (w : World) (size : Z) :
  map visibleWidth (RenderImageLines w (NewImageRenderer size) EmptyString)
  = (List.repeat 34%nat 8 ++ List.repeat 31%nat 12)%list
  /\ ~ (exists k : nat,
          Forall (fun line => visibleWidth line = k)
                 (RenderImageLines w (NewImageRenderer size) EmptyString)).
Proof.
  assert (Hw : map visibleWidth (RenderImageLines w (NewImageRenderer size) EmptyString)
               = (List.repeat 34%nat 8 ++ List.repeat 31%nat 12)%list)
    by (vm_compute; reflexivity).
  split; [exact Hw |].
  intros [k Hk].
  assert (Hall : Forall (fun n => n = k)
                   (map visibleWidth (RenderImageLines w (NewImageRenderer size) EmptyString))).
  { apply Forall_map. exact Hk. }
  rewrite Hw in Hall. cbn in Hall.
  inversion_clear Hall as [|? ? H0 Ht].
  apply Forall_forall with (x := 31%nat) in Ht; [lia | simpl; tauto].
Qed.

(* ================================================================= *)
(** ** The side-by-side composition *)

Lemma forEach_prints {A : Type} (xs : list A) (body : A -> Proc unit) (f : A -> string) :
  (forall x out, In x xs -> body x out = (Returned tt, (out ++ [f x])%list)) ->
  forall out, forEach xs body out = (Returned tt, (out ++ map f xs)%list).
Proof.
  induction xs as [|x xs IH]; intros Hbody out; simpl.
  - unfold ret. now rewrite app_nil_r.
  - unfold bind. rewrite Hbody by (left; reflexivity).
    rewrite IH by (intros; apply Hbody; now right).
    now rewrite <- app_assoc.
Qed.

Lemma index_in_range (xs : list string) (i : Z) (out : list string) :
  0 <= i < llen xs -> index xs i out = (Returned (nth (Z.to_nat i) xs EmptyString), out).
Proof.
  intros Hi. unfold index.
  replace ((0 <=? i) && (i <? llen xs)) with true; [reflexivity |].
  symmetry. apply andb_true_iff. split; [apply Z.leb_le | apply Z.ltb_lt]; lia.
Qed.

Lemma padLines_length (lines : list string) (n : Z) (fill : string) :
  llen (padLines lines n fill) = Z.max (llen lines) n.
Proof.
  unfold padLines, llen. rewrite length_app, repeat_length. lia.
Qed.

Lemma padLines_enough (lines : list string) (n : Z) (fill : string) :
  n <= llen lines -> padLines lines n fill = lines.
Proof.
  intros H. unfold padLines.
  replace (Z.to_nat (n - llen lines)) with 0%nat by lia.
  apply app_nil_r.
Qed.

Lemma targetLinesOf_max (imageLines infoLines : list string) :
  targetLinesOf imageLines infoLines = Z.max (llen imageLines) (llen infoLines) - 2.
Proof.
  unfold targetLinesOf. destruct (Z.ltb_spec (llen imageLines) (llen infoLines)); lia.
Qed.

Lemma mainRows_ext (imageLines info1 info2 : list string) (targetLines : Z) :
  (forall i, 0 <= i < targetLines ->
             nth (Z.to_nat i) info1 EmptyString = nth (Z.to_nat i) info2 EmptyString) ->
  mainRows imageLines info1 targetLines = mainRows imageLines info2 targetLines.
Proof.
  intros H. unfold mainRows. apply map_ext_in. intros i Hi.
  apply zrange_bounds in Hi. now rewrite H by lia.
Qed.

(** The main loop prints the rows of [mainRows] and does not panic. *)
Lemma displaySideBySideWithLinks_rows (w : World)
    (imageLines infoLines links out : list string) :
  displaySideBySideWithLinks w imageLines infoLines links out
  = linkSection w imageLines links (targetLinesOf imageLines infoLines)
      (out ++ mainRows imageLines
                (padLines infoLines (targetLinesOf imageLines infoLines) EmptyString)
                (targetLinesOf imageLines infoLines))%list.
Proof.
  unfold displaySideBySideWithLinks, forRange.
  set (T := targetLinesOf imageLines infoLines).
  set (padded := padLines infoLines T EmptyString).
  unfold bind at 1.
  rewrite (forEach_prints (zrange 0 T) _
             (fun i => (if i <? llen imageLines
                        then nth (Z.to_nat i) imageLines EmptyString
                        else blankImage)
                       ++ gap ++ nth (Z.to_nat i) padded EmptyString ++ NL)).
  - reflexivity.
  - intros i out0 Hi. apply zrange_bounds in Hi.
    assert (Hp : 0 <= i < llen padded).
    { unfold padded. rewrite padLines_length. lia. }
    destruct (Z.ltb_spec i (llen imageLines)).
    + unfold bind. rewrite index_in_range by lia. rewrite index_in_range by lia.
      reflexivity.
    + unfold bind. rewrite index_in_range by lia. reflexivity.
Qed.

Lemma specComposition_rows (w : World) (imageLines infoLines links out : list string) :
  specComposition w imageLines infoLines links out
  = linkSection w imageLines links (llen imageLines - 2)
      (out ++ mainRows imageLines
                (padLines infoLines (llen imageLines - 2) EmptyString)
                (llen imageLines - 2))%list.
Proof.
  unfold specComposition, forRange.
  set (T := llen imageLines - 2).
  set (padded := padLines infoLines T EmptyString).
  unfold bind at 1.
  rewrite (forEach_prints (zrange 0 T) _
             (fun i => (if i <? llen imageLines
                        then nth (Z.to_nat i) imageLines EmptyString
                        else blankImage)
                       ++ gap ++ nth (Z.to_nat i) padded EmptyString ++ NL)).
  - reflexivity.
  - intros i out0 Hi. apply zrange_bounds in Hi.
    assert (Hp : 0 <= i < llen padded).
    { unfold padded. rewrite padLines_length. lia. }
    unfold bind. rewrite index_in_range by lia. rewrite index_in_range by lia.
    destruct (Z.ltb_spec i (llen imageLines)); [reflexivity | lia].
Qed.

(** C2, amended.  The target is the larger of the image-line count [H] and
    the info-line count, minus 2.  The info panel is padded with blank
    lines up to the target, and the lines below the target are printed as
    image line (the filler where the image has none), gap, info line.
    When the info panel has at most [H] lines the target is [H - 2] and
    the composition is the one the specification words. *)
Theorem composition_target (w : World) (imageLines infoLines links out : list string) :
  llen (padLines infoLines (Z.max (llen imageLines) (llen infoLines) - 2) EmptyString)
  = Z.max (llen infoLines) (Z.max (llen imageLines) (llen infoLines) - 2)
  /\ displaySideBySideWithLinks w imageLines infoLines links out
     = linkSection w imageLines links (Z.max (llen imageLines) (llen infoLines) - 2)
         (out ++ mainRows imageLines
                   (padLines infoLines (Z.max (llen imageLines) (llen infoLines) - 2)
                             EmptyString)
                   (Z.max (llen imageLines) (llen infoLines) - 2))%list
  /\ (llen infoLines <= llen imageLines ->
      Z.max (llen imageLines) (llen infoLines) - 2 = llen imageLines - 2
      /\ displaySideBySideWithLinks w imageLines infoLines links out
         = specComposition w imageLines infoLines links out).
Proof.
  split; [apply padLines_length |].
  split.
  - rewrite displaySideBySideWithLinks_rows, targetLinesOf_max. reflexivity.
  - intros Hle. split; [lia |].
    rewrite displaySideBySideWithLinks_rows, specComposition_rows, targetLinesOf_max.
    now replace (Z.max (llen imageLines) (llen infoLines) - 2) with (llen imageLines - 2) by lia.
Qed.

(** C2, amended, on an image of four lines and a panel of one line. *)
Lemma composition_target_witness :
  displaySideBySideWithLinks quietWorld ["i0"; "i1"; "i2"; "i3"] ["Name"] ["Spotify"] []
  = specComposition quietWorld ["i0"; "i1"; "i2"; "i3"] ["Name"] ["Spotify"] [].
Proof.
  destruct (composition_target quietWorld ["i0"; "i1"; "i2"; "i3"] ["Name"] ["Spotify"] [])
    as (_ & _ & H).
  apply H. vm_compute. discriminate.
Defined.

(** C2 as stated fails when the info panel is longer than the image: on an
    image of 3 lines and a panel of 6 lines the code prints 4 rows of image,
    gap and info (the fourth with the filler for the image), where the
    composition of the specification prints 1 and then the image lines
    alone. *)
Lemma composition_counterexample :
  stdout (displaySideBySideWithLinks quietWorld
            ["i0"; "i1"; "i2"] ["a"; "b"; "c"; "d"; "e"; "f"] [])
  = [ "i0   a" ++ NL; "i1   b" ++ NL; "i2   c" ++ NL; blankImage ++ "   d" ++ NL ]
  /\ stdout (specComposition quietWorld
               ["i0"; "i1"; "i2"] ["a"; "b"; "c"; "d"; "e"; "f"] [])
     = [ "i0   a" ++ NL; "i1   " ++ NL; "i2   " ++ NL ]
  /\ displaySideBySideWithLinks quietWorld
       ["i0"; "i1"; "i2"] ["a"; "b"; "c"; "d"; "e"; "f"] []
     <> specComposition quietWorld
          ["i0"; "i1"; "i2"] ["a"; "b"; "c"; "d"; "e"; "f"] [].
Proof.
  split; [vm_compute; reflexivity |].
  split; [vm_compute; reflexivity |].
  intros Heq.
  apply (f_equal (fun p => List.length (snd (p [])))) in Heq.
  vm_compute in Heq. discriminate.
Qed.

(** C10.  When the info panel has at least as many lines as the image, the
    rows printed before the link row carry the first [n - 2] info lines,
    [n] being the number of info lines, and what follows (the link row and
    the image lines after it) carries none: the output is the same for
    any panel of that length with the same first [n - 2] lines. *)
Theorem composition_drops_last_two (w : World)
    (imageLines infoLines links out : list string) :
  llen imageLines <= llen infoLines ->
  displaySideBySideWithLinks w imageLines infoLines links out
  = linkSection w imageLines links (llen infoLines - 2)
      (out ++ mainRows imageLines
                (firstn (Z.to_nat (llen infoLines - 2)) infoLines)
                (llen infoLines - 2))%list
  /\ (forall others : list string,
        llen others = llen infoLines ->
        firstn (Z.to_nat (llen infoLines - 2)) others
        = firstn (Z.to_nat (llen infoLines - 2)) infoLines ->
        displaySideBySideWithLinks w imageLines others links out
        = displaySideBySideWithLinks w imageLines infoLines links out).
Proof.
  intros Hle.
  assert (Hgen : forall info : list string,
            llen imageLines <= llen info ->
            displaySideBySideWithLinks w imageLines info links out
            = linkSection w imageLines links (llen info - 2)
                (out ++ mainRows imageLines
                          (firstn (Z.to_nat (llen info - 2)) info)
                          (llen info - 2))%list).
  { intros info Hi.
    rewrite displaySideBySideWithLinks_rows, targetLinesOf_max.
    replace (Z.max (llen imageLines) (llen info) - 2) with (llen info - 2) by lia.
    rewrite padLines_enough by lia.
    f_equal. f_equal. apply mainRows_ext. intros i Hr.
    rewrite nth_firstn.
    destruct (Nat.ltb_spec (Z.to_nat i) (Z.to_nat (llen info - 2))); [reflexivity | lia]. }
  split; [apply Hgen; exact Hle |].
  intros others Hlen Hfirst.
  rewrite (Hgen others), (Hgen infoLines) by lia.
  now rewrite Hlen, Hfirst.
Qed.

(** C10 on an image of two lines and a panel of four. *)
Lemma composition_drops_last_two_witness :
  displaySideBySideWithLinks quietWorld ["i0"; "i1"] ["a"; "b"; "c"; "d"] ["Spotify"] []
  = linkSection quietWorld ["i0"; "i1"] ["Spotify"] 2 ["i0   a" ++ NL; "i1   b" ++ NL].
Proof.
  refine (proj1 (composition_drops_last_two quietWorld
                   ["i0"; "i1"] ["a"; "b"; "c"; "d"] ["Spotify"] [] _)).
  vm_compute. discriminate.
Defined.

(* ================================================================= *)
(** ** The ordinal date *)

Lemma isDigit_digitChars (c : ascii) : isDigit c = true -> In c digitChars.
Proof.
  destruct c as [[] [] [] [] [] [] [] []]; intros H;
    try (vm_compute in H; discriminate H); simpl; tauto.
Qed.

Lemma yearRoundTrips_all :
  forallb (fun a => forallb (fun b => forallb (fun c => forallb (fun d =>
     yearRoundTrips a b c d) digitChars) digitChars) digitChars) digitChars = true.
Proof. vm_compute. reflexivity. Qed.

Lemma formatYear_digits (a b c d : ascii) :
  isDigit a = true -> isDigit b = true -> isDigit c = true -> isDigit d = true ->
  formatYear (1000 * digitVal a + 100 * digitVal b + 10 * digitVal c + digitVal d)
  = String a (String b (String c (String d EmptyString))).
Proof.
  intros Ha Hb Hc Hd.
  apply isDigit_digitChars in Ha, Hb, Hc, Hd.
  pose proof yearRoundTrips_all as Hall.
  rewrite forallb_forall in Hall. specialize (Hall a Ha).
  rewrite forallb_forall in Hall. specialize (Hall b Hb).
  rewrite forallb_forall in Hall. specialize (Hall c Hc).
  rewrite forallb_forall in Hall. specialize (Hall d Hd).
  now apply String.eqb_eq.
Qed.

Lemma isEmpty_true (s : string) : isEmpty s = true <-> s = EmptyString.
Proof. unfold isEmpty. apply String.eqb_eq. Qed.

Lemma parseYear_formatYear (value : string) (year : Z) :
  parseYear value = Some year -> formatYear year = value.
Proof.
  unfold parseYear, parseLongYear.
  destruct value as [|a [|b [|c [|d rest]]]]; try discriminate.
  destruct (isDigit a) eqn:Ha; [| discriminate].
  destruct (isDigit b) eqn:Hb; [| discriminate].
  destruct (isDigit c) eqn:Hc; [| discriminate].
  destruct (isDigit d) eqn:Hd; [| discriminate].
  cbn [andb].
  destruct (isEmpty rest) eqn:Hrest; [| discriminate].
  apply isEmpty_true in Hrest. subst rest.
  intros [= <-]. now apply formatYear_digits.
Qed.

(** A parsed date is a date of the calendar. *)
Lemma parseDate_range (value : string) (t : Date) :
  parseDate value = Some t ->
  value <> EmptyString /\ 1 <= Month t <= 12 /\ 1 <= Day t <= daysIn (Month t) (Year t).
Proof.
  unfold parseDate. intros H.
  split; [intros ->; discriminate H |].
  destruct (parseLongYear value) as [[year v1]|]; [| discriminate].
  destruct (skipDash v1) as [v2|]; [| discriminate].
  destruct (getnumFixed v2) as [[month v3]|]; [| discriminate].
  destruct ((month <=? 0) || (12 <? month)) eqn:Hm; [discriminate |].
  destruct (skipDash v3) as [v4|]; [| discriminate].
  destruct (getnumFixed v4) as [[day v5]|]; [| discriminate].
  destruct (negb (isEmpty v5)); [discriminate |].
  destruct ((day <? 1) || (daysIn month year <? day)) eqn:Hd; [discriminate |].
  injection H as <-. cbn [Year Month Day].
  apply orb_false_iff in Hm, Hd. destruct Hm as [Hm1 Hm2], Hd as [Hd1 Hd2].
  apply Z.leb_gt in Hm1. apply Z.ltb_ge in Hm2, Hd1, Hd2. lia.
Qed.

Lemma daysIn_le_31 (month year : Z) : daysIn month year <= 31.
Proof.
  unfold daysIn.
  destruct ((month =? 2) && isLeap year); [lia |].
  destruct (month =? 2); [lia |].
  destruct ((month =? 4) || (month =? 6) || (month =? 9) || (month =? 11)); lia.
Qed.

(** C5.  [formatOrdinalDate]: the empty string gives ["N/A"]; a string that
    parses as [YYYY-MM-DD] gives the day, its suffix, the month and the
    year, the suffix being ["th"] for the days 11 to 13 and otherwise
    ["st"], ["nd"], ["rd"] for a last digit 1, 2, 3 and ["th"] for the
    rest; a string that parses as a year alone gives that year, which is
    the string; any other string is returned unchanged. *)
Theorem formatOrdinalDate_cases (dateStr : string) :
  (dateStr = EmptyString -> formatOrdinalDate dateStr = "N/A")
  /\ (forall t : Date,
        parseDate dateStr = Some t ->
        exists suffix : string,
          formatOrdinalDate dateStr
          = itoa (Day t) ++ suffix ++ " " ++ monthAbbrev (Month t) ++ " " ++ itoa (Year t)
          /\ (11 <= Day t <= 13 -> suffix = "th")
          /\ (~ 11 <= Day t <= 13 -> Day t mod 10 = 1 -> suffix = "st")
          /\ (~ 11 <= Day t <= 13 -> Day t mod 10 = 2 -> suffix = "nd")
          /\ (~ 11 <= Day t <= 13 -> Day t mod 10 = 3 -> suffix = "rd")
          /\ (~ 11 <= Day t <= 13 ->
              Day t mod 10 <> 1 -> Day t mod 10 <> 2 -> Day t mod 10 <> 3 ->
              suffix = "th"))
  /\ (forall year : Z,
        parseDate dateStr = None -> parseYear dateStr = Some year ->
        formatOrdinalDate dateStr = formatYear year /\ formatYear year = dateStr)
  /\ (dateStr <> EmptyString -> parseDate dateStr = None -> parseYear dateStr = None ->
      formatOrdinalDate dateStr = dateStr)
  /\ formatOrdinalDate "2020-01-01" = "1st Jan 2020"
  /\ formatOrdinalDate "2020-01-11" = "11th Jan 2020"
  /\ formatOrdinalDate "2020-01-22" = "22nd Jan 2020"
  /\ formatOrdinalDate "2020" = "2020".
Proof.
  split; [intros ->; reflexivity |].
  split.
  { intros t Ht.
    destruct (parseDate_range dateStr t Ht) as (Hne & _ & Hday).
    pose proof (daysIn_le_31 (Month t) (Year t)) as H31.
    assert (Hrem : Z.rem (Day t) 10 = Day t mod 10) by (apply Z.rem_mod_nonneg; lia).
    unfold formatOrdinalDate.
    destruct (isEmpty dateStr) eqn:He; [apply isEmpty_true in He; contradiction |].
    rewrite Ht, Hrem.
    eexists. split; [reflexivity |].
    destruct (Z.leb_spec 11 (Day t)), (Z.leb_spec (Day t) 13); cbn [andb];
      destruct (Z.eqb_spec (Day t mod 10) 1);
      destruct (Z.eqb_spec (Day t mod 10) 2);
      destruct (Z.eqb_spec (Day t mod 10) 3);
      repeat split; intros; try reflexivity; lia. }
  split.
  { intros year Hd Hy.
    split; [| exact (parseYear_formatYear dateStr year Hy)].
    unfold formatOrdinalDate. rewrite Hd, Hy.
    destruct (isEmpty dateStr) eqn:He; [| reflexivity].
    apply isEmpty_true in He. rewrite He in Hy. discriminate Hy. }
  split.
  { intros Hne Hd Hy. unfold formatOrdinalDate. rewrite Hd, Hy.
    destruct (isEmpty dateStr) eqn:He; [| reflexivity].
    apply isEmpty_true in He. contradiction. }
  repeat split; vm_compute; reflexivity.
Qed.

(** C5 on a date of the catalogue, on a year and on a month-precision date. *)
Lemma formatOrdinalDate_cases_witness :
  formatOrdinalDate "2015-07-17" = "17th Jul 2015"
  /\ formatOrdinalDate "1973" = "1973"
  /\ formatOrdinalDate "2015-07" = "2015-07".
Proof.
  split; [| split].
  - destruct (formatOrdinalDate_cases "2015-07-17") as (_ & H & _).
    destruct (H {| Year := 2015; Month := 7; Day := 17 |} eq_refl)
      as (suffix & Heq & _ & _ & _ & _ & Hth).
    rewrite Heq, Hth by (cbn; lia). reflexivity.
  - destruct (formatOrdinalDate_cases "1973") as (_ & _ & H & _).
    destruct (H 1973 eq_refl eq_refl) as [H1 H2].
    rewrite H1. exact H2.
  - destruct (formatOrdinalDate_cases "2015-07") as (_ & _ & _ & H & _).
    apply H; [discriminate | reflexivity | reflexivity].
Defined.

(* ================================================================= *)
(** ** The genre line *)

Lemma substring_0_length (s : string) (n : nat) :
  (n <= String.length s)%nat -> String.length (String.substring 0 n s) = n.
Proof.
  revert n. induction s as [|c s IH]; intros [|n] H; simpl in *; try reflexivity; try lia.
  rewrite IH; [reflexivity | lia].
Qed.

Lemma substring_0_prefix (s : string) (n : nat) :
  exists rest : string, s = String.substring 0 n s ++ rest.
Proof.
  revert n. induction s as [|c s IH]; intros [|n]; simpl.
  - now exists EmptyString.
  - now exists EmptyString.
  - now exists (String c s).
  - destruct (IH n) as [rest Hrest]. exists rest. now rewrite <- Hrest.
Qed.

(** C6.  When the joined genres are longer than 50 bytes, the genre value
    is their first 47 bytes followed by the three bytes ["..."], 50 bytes
    in all; otherwise it is the joined genres.  The value is the one of
    the genre line, which is appended when there is a genre. *)
Theorem genreString_truncation (genres : list string) :
  (50 < len (Join genres ", ") ->
     genreString genres = sliceTo (Join genres ", ") 47 ++ "..."
     /\ len (sliceTo (Join genres ", ") 47) = 47
     /\ (exists rest : string, Join genres ", " = sliceTo (Join genres ", ") 47 ++ rest)
     /\ len (genreString genres) = 50)
  /\ (len (Join genres ", ") <= 50 -> genreString genres = Join genres ", ")
  /\ (forall infoLines : list string,
        genres <> [] ->
        appendGenres infoLines genres
        = (infoLines ++ [formatInfoLine "Genres" (genreString genres) ColorRed])%list).
Proof.
  unfold genreString, len.
  split; [| split].
  - intros Hlong.
    assert (H47 : String.length (sliceTo (Join genres ", ") 47) = 47%nat).
    { apply substring_0_length. lia. }
    destruct (Z.ltb_spec 50 (Z.of_nat (String.length (Join genres ", ")))); [| lia].
    split; [reflexivity |].
    split; [lia |].
    split; [apply substring_0_prefix |].
    rewrite length_append, H47. reflexivity.
  - intros Hshort.
    destruct (Z.ltb_spec 50 (Z.of_nat (String.length (Join genres ", ")))); [lia | reflexivity].
  - intros infoLines Hne. unfold appendGenres.
    destruct genres as [|g genres]; [contradiction | reflexivity].
Qed.

(** C6 on a list of four genres whose joined string has 58 bytes. *)
Lemma genreString_truncation_witness :
  genreString ["neo-psychedelic"; "modern rock"; "australian psych"; "indie rock"]
  = "neo-psychedelic, modern rock, australian psych,..."
  /\ genreString ["neo-psychedelic"; "modern rock"] = "neo-psychedelic, modern rock".
Proof.
  split.
  - destruct (genreString_truncation
                ["neo-psychedelic"; "modern rock"; "australian psych"; "indie rock"])
      as (H & _).
    destruct H as (Heq & _); [vm_compute; reflexivity |].
    rewrite Heq. reflexivity.
  - destruct (genreString_truncation ["neo-psychedelic"; "modern rock"]) as (_ & H & _).
    apply H. vm_compute. discriminate.
Defined.


Lemma albumBaseLines_no_genre (w : World) (album : Album) :
  Forall (fun line => isGenreLine line = false) (albumBaseLines w album).
Proof.
  unfold albumBaseLines.
  repeat (apply Forall_cons; [vm_compute; reflexivity |]).
  apply Forall_nil.
Qed.

Lemma appendLabel_no_genre (infoLines : list string) (label : string) :
  Forall (fun line => isGenreLine line = false) infoLines ->
  Forall (fun line => isGenreLine line = false) (appendLabel infoLines label).
Proof.
  intros H. unfold appendLabel. destruct (0 <? len label); [| exact H].
  apply Forall_app. split; [exact H |].
  apply Forall_cons; [vm_compute; reflexivity | apply Forall_nil].
Qed.

Lemma appendTopTracks_no_genre (infoLines : list string) (tracks : list Track) :
  Forall (fun line => isGenreLine line = false) infoLines ->
  Forall (fun line => isGenreLine line = false) (appendTopTracks infoLines tracks).
Proof.
  intros H. unfold appendTopTracks. destruct (0 <? llen tracks); [| exact H].
  apply Forall_app. split; [exact H |].
  apply Forall_cons; [reflexivity |].
  apply Forall_cons; [vm_compute; reflexivity |].
  apply Forall_forall. intros line Hin. apply in_map_iff in Hin.
  destruct Hin as [track [<- _]]. vm_compute. reflexivity.
Qed.

Lemma appendLabel_keeps (infoLines : list string) (label : string) (k : nat) (line : string) :
  nth_error infoLines k = Some line -> nth_error (appendLabel infoLines label) k = Some line.
Proof.
  intros H. unfold appendLabel. destruct (0 <? len label); [| exact H].
  rewrite nth_error_app1; [exact H |]. apply nth_error_Some. congruence.
Qed.

Lemma appendTopTracks_keeps (infoLines : list string) (tracks : list Track)
    (k : nat) (line : string) :
  nth_error infoLines k = Some line -> nth_error (appendTopTracks infoLines tracks) k = Some line.
Proof.
  intros H. unfold appendTopTracks. destruct (0 <? llen tracks); [| exact H].
  rewrite nth_error_app1; [exact H |]. apply nth_error_Some. congruence.
Qed.

(** C7.  For an album without genres of its own and with a first artist,
    shown with a client: when the fetch of that artist succeeds the panel
    is built from the artist's genres, and when these are not empty the
    genre line (their joined, truncated value) follows the seven base
    lines; when the fetch fails the panel is the one without a genre
    line, and no line of it carries the label [Genres]. *)
Theorem album_genre_fallback (w : World) (album : Album) (client : Client)
    (first : Artist) (others : list Artist) :
  AlbumGenres album = [] ->
  AlbumArtists album = first :: others ->
  (forall artist : Artist,
     GetArtist client (ArtistID first) = Ok artist ->
     albumInfoLines w album (Some client)
     = appendTopTracks
         (appendLabel (appendGenres (albumBaseLines w album) (ArtistGenres artist))
                      (AlbumLabel album))
         (AlbumTracksItems album)
     /\ (ArtistGenres artist <> [] ->
         nth_error (albumInfoLines w album (Some client)) 7
         = Some (formatInfoLine "Genres" (genreString (ArtistGenres artist)) ColorRed)))
  /\ (forall e : string,
        GetArtist client (ArtistID first) = Err e ->
        albumInfoLines w album (Some client)
        = appendTopTracks (appendLabel (albumBaseLines w album) (AlbumLabel album))
                          (AlbumTracksItems album)
        /\ Forall (fun line => isGenreLine line = false)
                  (albumInfoLines w album (Some client))).
Proof.
  intros Hown Hartists. split.
  - intros artist Hget.
    assert (Hval : albumInfoLines w album (Some client)
                   = appendTopTracks
                       (appendLabel (appendGenres (albumBaseLines w album) (ArtistGenres artist))
                                    (AlbumLabel album))
                       (AlbumTracksItems album)).
    { unfold albumInfoLines, genresOrFallback. now rewrite Hown, Hartists, Hget. }
    split; [exact Hval |].
    intros Hne. rewrite Hval.
    apply appendTopTracks_keeps, appendLabel_keeps.
    unfold appendGenres. destruct (ArtistGenres artist) as [|g gs]; [contradiction |].
    reflexivity.
  - intros e Hget.
    assert (Hval : albumInfoLines w album (Some client)
                   = appendTopTracks (appendLabel (albumBaseLines w album) (AlbumLabel album))
                                     (AlbumTracksItems album)).
    { unfold albumInfoLines, genresOrFallback. rewrite Hown, Hartists, Hget. reflexivity. }
    split; [exact Hval |].
    rewrite Hval.
    apply appendTopTracks_no_genre, appendLabel_no_genre, albumBaseLines_no_genre.
Qed.

(** C7 on the album of the two worlds: the artist is fetched in the first
    and refused in the second. *)
Lemma album_genre_fallback_witness :
  nth_error (albumInfoLines quietWorld someAlbum (Some answeringClient)) 7
  = Some (formatInfoLine "Genres" "neo-psychedelic, modern rock" ColorRed)
  /\ Forall (fun line => isGenreLine line = false)
            (albumInfoLines failingWorld someAlbum (Some refusingClient)).
Proof.
  split.
  - destruct (album_genre_fallback quietWorld someAlbum answeringClient someArtist []
                eq_refl eq_refl) as [H _].
    destruct (H someArtist eq_refl) as [_ Hline].
    apply Hline. discriminate.
  - destruct (album_genre_fallback failingWorld someAlbum refusingClient someArtist []
                eq_refl eq_refl) as [_ H].
    destruct (H "failed to get artist: 401 Unauthorized" eq_refl) as [_ Hnone].
    exact Hnone.
Defined.

(* ================================================================= *)
(** ** The search command *)

Lemma clampImageSize_value (n : Z) : clampImageSize n = Z.min 35 (Z.max 15 n).
Proof.
  unfold clampImageSize.
  destruct (Z.ltb_spec n 15) as [Hlo | Hlo].
  - destruct (Z.ltb_spec 35 15); lia.
  - destruct (Z.ltb_spec 35 n); lia.
Qed.

(** C8.  The image size in effect is the requested size clamped to
    [15..35]: 15 below 15, 35 above 35, the request itself in between.  No
    request is refused: the command on a size [n] is the command on the
    clamped [n]. *)
Theorem clampImageSize_clamps (n : Z) :
  (n < 15 -> clampImageSize n = 15)
  /\ (35 < n -> clampImageSize n = 35)
  /\ (15 <= n <= 35 -> clampImageSize n = n)
  /\ 15 <= clampImageSize n <= 35
  /\ (forall (w : World) (query searchType : string),
        searchCmd w query searchType n = searchCmd w query searchType (clampImageSize n)).
Proof.
  pose proof (clampImageSize_value n) as Hv.
  pose proof (clampImageSize_value (clampImageSize n)) as Hvv.
  repeat split; try lia.
  intros w query searchType.
  unfold searchCmd, searchBody.
  now replace (clampImageSize (clampImageSize n)) with (clampImageSize n) by lia.
Qed.

(** C8 on the requests 5, 50 and 25. *)
Lemma clampImageSize_clamps_witness :
  clampImageSize 5 = 15 /\ clampImageSize 50 = 35 /\ clampImageSize 25 = 25.
Proof.
  split; [| split].
  - apply (clampImageSize_clamps 5). lia.
  - apply (clampImageSize_clamps 50). lia.
  - apply (clampImageSize_clamps 25). lia.
Defined.

Lemma searchCmd_hidden (w : World) (cfg : Config) (query searchType : string)
    (imageSize : Z) (out : list string) :
  HasCredentials w = true ->
  GetConfig w = Ok cfg ->
  searchCmd w query searchType imageSize out
  = defer (Print showCursor)
      (searchBody w (NewClient w (SpotifyClientID cfg) (SpotifyClientSecret cfg))
                  query searchType imageSize)
      (out ++ [hideCursor])%list.
Proof.
  intros Hcred Hcfg. unfold searchCmd. rewrite Hcred, Hcfg. reflexivity.
Qed.

(** When the body of the command returns or panics, the deferred call
    prints the sequence that shows the cursor, last. *)
Lemma defer_restores {A : Type} (body : Proc A) (out out1 : list string) (r : Outcome A) :
  body out = (r, out1) ->
  (forall code, r <> Exited code) ->
  defer (Print showCursor) body out = (r, (out1 ++ [showCursor])%list).
Proof.
  intros Hbody Hr. unfold defer. rewrite Hbody.
  destruct r as [a | msg | code]; try reflexivity.
  now contradiction (Hr code).
Qed.

(** When the body of the command exits, nothing is printed after it. *)
Lemma defer_skipped_on_exit {A : Type} (body : Proc A) (out out1 : list string) (code : Z) :
  body out = (Exited code, out1) ->
  defer (Print showCursor) body out = (Exited code, out1).
Proof.
  intros Hbody. unfold defer. now rewrite Hbody.
Qed.

(** A search of a given kind that the catalogue refuses: the command
    prints the error and exits with status 1, the cursor still hidden. *)
Lemma searchCmd_search_refused (w : World) (cfg : Config) (query searchType err : string)
    (imageSize : Z) :
  HasCredentials w = true ->
  GetConfig w = Ok cfg ->
  String.eqb searchType "auto" = false ->
  Search (NewClient w (SpotifyClientID cfg) (SpotifyClientSecret cfg)) query searchType
  = Err err ->
  searchCmd w query searchType imageSize []
  = (Exited 1, [hideCursor; NL; "Search failed: " ++ err ++ NL]).
Proof.
  intros Hcred Hcfg Hauto Hsearch.
  rewrite (searchCmd_hidden w cfg) by assumption.
  apply defer_skipped_on_exit.
  unfold searchBody, searchSpecific. rewrite Hauto, Hsearch. reflexivity.
Qed.

(** C9, evaluated where the catalogue refuses a track search.  The command
    hides the cursor, prints the error and exits with status 1; the
    sequence that shows the cursor is not printed. *)
Theorem searchCmd_exit_leaves_cursor_hidden :
  searchCmd failingWorld "Let It Happen" "track" 20 []
  = (Exited 1,
     [hideCursor; NL; "Search failed: search failed: 401 Unauthorized - " ++ NL])
  /\ In hideCursor (stdout (searchCmd failingWorld "Let It Happen" "track" 20))
  /\ ~ In showCursor (stdout (searchCmd failingWorld "Let It Happen" "track" 20)).
Proof.
  assert (Hrun : searchCmd failingWorld "Let It Happen" "track" 20 []
                 = (Exited 1,
                    [hideCursor; NL;
                     "Search failed: search failed: 401 Unauthorized - " ++ NL])).
  { apply (searchCmd_search_refused failingWorld
             {| SpotifyClientID := "0123456789abcdef";
                SpotifyClientSecret := "fedcba9876543210" |});
      reflexivity. }
  split; [exact Hrun |].
  unfold stdout. rewrite Hrun. cbn [snd].
  split; [left; reflexivity |].
  intros [H | [H | [H | []]]]; vm_compute in H; discriminate H.
Qed.

(** Where the catalogue answers, the command returns and the cursor is
    shown again by the last thing printed. *)
Lemma searchCmd_returns_restored :
  outcome (searchCmd quietWorld "Currents" "album" 20) = Returned tt
  /\ last (stdout (searchCmd quietWorld "Currents" "album" 20)) EmptyString = showCursor.
Proof.
  split; vm_compute; reflexivity.
Qed.

(* ================================================================= *)
(** ** The model at work *)

Example formatOrdinalDate_no_such_day :
  formatOrdinalDate "2021-02-29" = "2021-02-29"
  /\ formatOrdinalDate "2020-02-29" = "29th Feb 2020"
  /\ formatOrdinalDate "2020-1-03" = "2020-1-03"
  /\ formatOrdinalDate "2020-01-03" = "3rd Jan 2020".
Proof. repeat split; vm_compute; reflexivity. Qed.

Example formatInfoLine_pads_label :
  formatInfoLine "Name" "Currents" ColorGreen
  = ColorBold ++ "Name" ++ ColorReset ++ "          " ++ ColorGreen ++ "Currents" ++ ColorReset.
Proof. vm_compute. reflexivity. Qed.

Example composition_without_input_panics :
  outcome (displaySideBySideWithLinks quietWorld [] [] []) = Panicked "index out of range".
Proof. vm_compute. reflexivity. Qed.

Example album_display_line_count :
  List.length (stdout (DisplayAlbum quietWorld someAlbum (Some answeringClient) 15)) = 15%nat
  /\ List.length (albumInfoLines quietWorld someAlbum (Some answeringClient)) = 9%nat.
Proof. split; vm_compute; reflexivity. Qed.
(* ================================================================= *)
(** ** Further properties: what the terminal shows *)

Lemma scan_from (st st1 : TermState) (k : nat) (a b : string) :
  scan st a = (st1, k) ->
  scan st (a ++ b) = (fst (scan st1 b), (k + snd (scan st1 b))%nat).
Proof.
  intros H. rewrite scan_append, H. reflexivity.
Qed.

Lemma printable_scan (s : string) :
  printable s = true -> scan Text s = (Text, String.length s).
Proof.
  induction s as [|c s IH]; simpl; [reflexivity |].
  intros H. apply andb_true_iff in H. destruct H as [Hc Hs].
  apply andb_true_iff in Hc. destruct Hc as [Hlo Hhi].
  apply Z.leb_le in Hlo. apply Z.ltb_lt in Hhi.
  unfold termStep, startsCharacter.
  destruct (Z.eqb_spec (byteOf c) 27); [lia |].
  replace ((32 <=? byteOf c) && (byteOf c <? 127)) with true
    by (symmetry; apply andb_true_iff; split; [apply Z.leb_le | apply Z.ltb_lt]; lia).
  cbn [orb]. now rewrite (IH Hs).
Qed.

Lemma plainURL_scan (s : string) :
  plainURL s = true -> scan InOSC s = (InOSC, 0%nat).
Proof.
  induction s as [|c s IH]; simpl; [reflexivity |].
  intros H. apply andb_true_iff in H. destruct H as [Hc Hs].
  apply andb_true_iff in Hc. destruct Hc as [Hesc Hbel].
  apply negb_true_iff in Hesc, Hbel.
  unfold termStep. rewrite Hbel, Hesc. now rewrite (IH Hs).
Qed.

Lemma Repeat_space_scan (n : nat) : scan Text (Repeat " " n) = (Text, n).
Proof.
  induction n as [|n IH]; [reflexivity |].
  cbn [Repeat]. rewrite (scan_from Text Text 1 " " _ eq_refl), IH. reflexivity.
Qed.

(** The hyperlink wrapper shows nothing of its own: a link on a URL
    without [ESC] or [BEL] shows exactly what its text shows. *)
Theorem createClickableLink_shows_text (url text : string) (k : nat) :
  plainURL url = true ->
  scan Text text = (Text, k) ->
  scan Text (createClickableLink url text) = (Text, k).
Proof.
  intros Hurl Htext. unfold createClickableLink.
  cbn -[scan]. cbn [scan termStep byteOf]. cbn -[scan].
  rewrite (scan_from InOSC InOSC 0 url _ (plainURL_scan url Hurl)).
  cbn -[scan]. cbn [scan]. cbn -[scan].
  rewrite (scan_from Text Text k text _ Htext).
  cbn. f_equal. lia.
Qed.

Lemma createClickableLink_shows_text_witness :
  scan Text (createClickableLink "https://open.spotify.com/artist/a1" "Tame Impala")
  = (Text, 11%nat).
Proof.
  apply (createClickableLink_shows_text "https://open.spotify.com/artist/a1" "Tame Impala").
  - reflexivity.
  - reflexivity.
Defined.

(** The label column: for a printable label, a value that shows [k]
    characters and a colour that shows none, [formatInfoLine] shows the
    label, blanks up to column 14 (two blanks when the label is longer
    than 12 bytes) and the value. *)
Theorem formatInfoLine_column (label value color : string) (k : nat) :
  printable label = true ->
  scan Text color = (Text, 0%nat) ->
  scan Text value = (Text, k) ->
  Z.of_nat (visibleWidth (formatInfoLine label value color))
  = Z.max 14 (len label + 2) + Z.of_nat k.
Proof.
  intros Hlabel Hcolor Hvalue.
  unfold visibleWidth, formatInfoLine.
  set (padding := if 12 - len label + 2 <? 2 then 2 else 12 - len label + 2).
  cbn -[scan Repeat len]. cbn [scan termStep byteOf]. cbn -[scan Repeat len].
  rewrite (scan_from Text Text _ label _ (printable_scan label Hlabel)).
  cbn -[scan Repeat len]. cbn [scan termStep byteOf]. cbn -[scan Repeat len].
  rewrite (scan_from Text Text _ _ _ (Repeat_space_scan (Z.to_nat padding))).
  rewrite (scan_from Text Text _ color _ Hcolor).
  rewrite (scan_from Text Text _ value _ Hvalue).
  cbn [fst snd].
  match goal with
  | |- context [snd (scan Text ?s)] => change (snd (scan Text s)) with 0%nat
  end.
  unfold padding, len.
  destruct (Z.ltb_spec (12 - Z.of_nat (String.length label) + 2) 2); lia.
Qed.

Lemma formatInfoLine_column_witness :
  Z.of_nat (visibleWidth (formatInfoLine "Popularity" "82%" ColorPurple)) = 14 + 3
  /\ Z.of_nat (visibleWidth (formatInfoLine "Name" "Currents" ColorGreen)) = 14 + 8.
Proof.
  split.
  - apply (formatInfoLine_column "Popularity" "82%" ColorPurple 3); reflexivity.
  - apply (formatInfoLine_column "Name" "Currents" ColorGreen 8); reflexivity.
Defined.

(** Whatever image the resampler returns, the block art has one line per
    row of it, every line shows one padding space and two characters per
    column, and no line is as wide as the 46-blank filler of the
    composition. *)
Theorem getBlockArtLines_uniform (w : World) (r : ImageRenderer) (img : Image) :
  llen (getBlockArtLines w r img)
  = Z.max 0 (Dy (Bounds (imaging_Resize w img (width r) (height r))))
  /\ Forall (fun line =>
               Z.of_nat (visibleWidth line)
               = 1 + 2 * Z.max 0 (Dx (Bounds (imaging_Resize w img (width r) (height r))))
               /\ visibleWidth line <> visibleWidth blankImage)
            (getBlockArtLines w r img).
Proof.
  rewrite getBlockArtLines_rows.
  set (resized := imaging_Resize w img (width r) (height r)).
  split.
  - unfold llen, Dy. rewrite length_map, zrange_length. lia.
  - apply Forall_forall. intros line Hin.
    apply in_map_iff in Hin. destruct Hin as [y [<- _]].
    rewrite blockArtLine_cells.
    set (cells := map _ _).
    assert (Hlen : Z.of_nat (List.length cells) = Z.max 0 (Dx (Bounds resized))).
    { unfold cells, Dx. rewrite length_map, zrange_length. lia. }
    unfold visibleWidth.
    rewrite (cells_width cells " " 1%nat) by reflexivity. cbn [snd].
    change (snd (scan Text blankImage)) with 46%nat.
    split; lia.
Qed.

(* ================================================================= *)
(** ** Further properties: the formatters *)

Lemma zrange_in (lo hi i : Z) : lo <= i < hi -> In i (zrange lo hi).
Proof.
  intros H. unfold zrange. apply in_map_iff.
  exists (Z.to_nat (i - lo)). split; [lia |].
  apply in_seq. lia.
Qed.

Lemma parseYear_not_parseLongYear (s : string) :
  parseLongYear s = None -> parseDate s = None /\ parseYear s = None.
Proof.
  intros H. unfold parseDate, parseYear. now rewrite H.
Qed.

(** What a date is formatted to starts with the day and its suffix, so
    its first four bytes are not four digits. *)
Lemma ordinal_not_a_year (day : Z) (rest : string) :
  1 <= day <= 31 ->
  parseLongYear
    (itoa day
     ++ (if (11 <=? day) && (day <=? 13) then "th"
         else if Z.rem day 10 =? 1 then "st"
         else if Z.rem day 10 =? 2 then "nd"
         else if Z.rem day 10 =? 3 then "rd"
         else "th")
     ++ " " ++ rest) = None.
Proof.
  intros H.
  assert (Hin : In day (zrange 1 32)) by (apply zrange_in; lia).
  cbv [zrange Z.sub Z.add Z.opp Z.pos_sub Pos.pred_double Z.to_nat Pos.to_nat
       Pos.iter_op Nat.add seq map Z.of_nat Pos.of_succ_nat Pos.succ Pos.add
       Z.succ_double Z.pred_double Z.double Pos.add_carry] in Hin.
  cbn [In] in Hin.
  repeat (destruct Hin as [<- | Hin]; [reflexivity |]).
  contradiction.
Qed.

(** [formatOrdinalDate] never gives the empty string, and formatting what
    it gave changes nothing. *)
Theorem formatOrdinalDate_stable (dateStr : string) :
  formatOrdinalDate dateStr <> EmptyString
  /\ formatOrdinalDate (formatOrdinalDate dateStr) = formatOrdinalDate dateStr.
Proof.
  assert (Hfix : forall s, s <> EmptyString -> parseDate s = None ->
                           (forall y, parseYear s = Some y -> formatYear y = s) ->
                           formatOrdinalDate s = s).
  { intros s Hne Hd Hy. unfold formatOrdinalDate. rewrite Hd.
    destruct (isEmpty s) eqn:He; [apply isEmpty_true in He; contradiction |].
    destruct (parseYear s) as [y|]; [now apply Hy | reflexivity]. }
  destruct (isEmpty dateStr) eqn:He.
  { apply isEmpty_true in He. subst dateStr. split; [discriminate | reflexivity]. }
  assert (Hne : dateStr <> EmptyString).
  { intros ->. discriminate He. }
  destruct (parseDate dateStr) as [t|] eqn:Hd.
  - destruct (parseDate_range dateStr t Hd) as (_ & _ & Hday).
    pose proof (daysIn_le_31 (Month t) (Year t)) as H31.
    assert (Hval : formatOrdinalDate dateStr
                   = itoa (Day t)
                     ++ (if (11 <=? Day t) && (Day t <=? 13) then "th"
                         else if Z.rem (Day t) 10 =? 1 then "st"
                         else if Z.rem (Day t) 10 =? 2 then "nd"
                         else if Z.rem (Day t) 10 =? 3 then "rd"
                         else "th")
                     ++ " " ++ (monthAbbrev (Month t) ++ " " ++ itoa (Year t))).
    { unfold formatOrdinalDate. rewrite He, Hd. reflexivity. }
    pose proof (ordinal_not_a_year (Day t) (monthAbbrev (Month t) ++ " " ++ itoa (Year t))
                  ltac:(lia)) as Hno.
    rewrite <- Hval in Hno.
    destruct (parseYear_not_parseLongYear _ Hno) as [Hd2 Hy2].
    assert (Hne2 : formatOrdinalDate dateStr <> EmptyString).
    { intros Hempty. rewrite Hempty in Hno. rewrite Hval in Hempty.
      apply (f_equal String.length) in Hempty.
      rewrite !length_append in Hempty. cbn [String.length] in Hempty. lia. }
    split; [exact Hne2 |].
    apply Hfix; [exact Hne2 | exact Hd2 |].
    intros y Hy. rewrite Hy2 in Hy. discriminate Hy.
  - assert (Hsame : formatOrdinalDate dateStr = dateStr).
    { apply Hfix; [exact Hne | exact Hd |]. intros y. apply parseYear_formatYear. }
    rewrite Hsame. split; [exact Hne | exact Hsame].
Qed.

Lemma fmt02d_two_digits (r : Z) : 0 <= r < 60 -> twoDigits (fmt02d r) = true.
Proof.
  intros H.
  assert (Hall : forallb (fun i => twoDigits (fmt02d i)) (zrange 0 60) = true)
    by (vm_compute; reflexivity).
  rewrite forallb_forall in Hall. apply Hall, zrange_in. exact H.
Qed.

(** When the duration is not negative, [formatDuration] gives the minutes,
    a colon and the seconds on exactly two digits. *)
Theorem formatDuration_two_digit_seconds (w : World) (d : Z) :
  0 <= intSeconds w d ->
  exists seconds : string,
    formatDuration w d = itoa (intMinutes w d) ++ ":" ++ seconds
    /\ twoDigits seconds = true
    /\ seconds = fmt02d (intSeconds w d mod 60).
Proof.
  intros H. unfold formatDuration.
  rewrite Z.rem_mod_nonneg by lia.
  eexists. split; [reflexivity |]. split; [| reflexivity].
  apply fmt02d_two_digits. apply Z.mod_pos_bound. lia.
Qed.

Lemma formatDuration_two_digit_seconds_witness :
  exists seconds : string,
    formatDuration quietWorld (millis 125000) = itoa 2 ++ ":" ++ seconds
    /\ twoDigits seconds = true
    /\ seconds = "05".
Proof.
  destruct (formatDuration_two_digit_seconds quietWorld (millis 125000))
    as (seconds & H1 & H2 & H3).
  - vm_compute. discriminate.
  - exists seconds. split; [exact H1 |]. split; [exact H2 |].
    rewrite H3. vm_compute. reflexivity.
Defined.

(* ================================================================= *)
(** ** Further properties: the info panels *)

Lemma appendGenres_length (infoLines genres : list string) :
  llen (appendGenres infoLines genres)
  = llen infoLines + (if 0 <? llen genres then 1 else 0).
Proof.
  unfold appendGenres, llen. destruct (0 <? Z.of_nat (List.length genres)).
  - rewrite length_app. cbn [List.length]. lia.
  - lia.
Qed.

Lemma appendLabel_length (infoLines : list string) (label : string) :
  llen (appendLabel infoLines label)
  = llen infoLines + (if 0 <? len label then 1 else 0).
Proof.
  unfold appendLabel, llen. destruct (0 <? len label).
  - rewrite length_app. cbn [List.length]. lia.
  - lia.
Qed.

Lemma appendTopTracks_length (infoLines : list string) (tracks : list Track) :
  llen (appendTopTracks infoLines tracks)
  = llen infoLines + (if 0 <? llen tracks then 2 + Z.min 5 (llen tracks) else 0).
Proof.
  unfold appendTopTracks, llen. destruct (0 <? Z.of_nat (List.length tracks)).
  - rewrite !length_app, length_map, length_firstn. cbn [List.length]. lia.
  - lia.
Qed.

(** The size of the panels.  A track panel has 8 lines, or 9 with the
    genre line.  An album panel has its 7 base lines, one more for each of
    the genre line and the label, and for its tracks a blank line, a
    header and at most 5 links: between 7 and 16 lines.  An artist panel
    has between 3 and 13 lines. *)
Theorem panel_sizes (w : World) (client : option Client) :
  (forall track : Track,
     8 <= llen (trackInfoLines w track client) <= 9)
  /\ (forall album : Album,
        llen (albumInfoLines w album client)
        = 7 + (if 0 <? llen (genresOrFallback (AlbumGenres album) (AlbumArtists album) client)
               then 1 else 0)
            + (if 0 <? len (AlbumLabel album) then 1 else 0)
            + (if 0 <? llen (AlbumTracksItems album)
               then 2 + Z.min 5 (llen (AlbumTracksItems album)) else 0)
        /\ 7 <= llen (albumInfoLines w album client) <= 16)
  /\ (forall artist : Artist,
        3 <= llen (artistInfoLines w artist client) <= 13).
Proof.
  split; [| split].
  - intros track. unfold trackInfoLines. rewrite appendGenres_length.
    destruct (0 <? llen _); cbn; lia.
  - intros album.
    assert (Hlen : llen (albumInfoLines w album client)
                   = 7 + (if 0 <? llen (genresOrFallback (AlbumGenres album)
                                          (AlbumArtists album) client)
                          then 1 else 0)
                       + (if 0 <? len (AlbumLabel album) then 1 else 0)
                       + (if 0 <? llen (AlbumTracksItems album)
                          then 2 + Z.min 5 (llen (AlbumTracksItems album)) else 0)).
    { unfold albumInfoLines.
      rewrite appendTopTracks_length, appendLabel_length, appendGenres_length.
      reflexivity. }
    split; [exact Hlen |]. rewrite Hlen.
    destruct (0 <? llen (genresOrFallback _ _ _)); destruct (0 <? len _);
      destruct (Z.ltb_spec 0 (llen (AlbumTracksItems album))); lia.
  - intros artist. unfold artistInfoLines.
    set (base := appendGenres _ _).
    assert (Hbase : 3 <= llen base <= 4).
    { unfold base. rewrite appendGenres_length. destruct (0 <? llen _); cbn; lia. }
    destruct client as [c|].
    + destruct (okOrNil (GetArtistAlbums c (ArtistID artist) "album"));
        destruct (okOrNil (GetArtistAlbums c (ArtistID artist) "single"));
        destruct (okOrNil (GetArtistTopTracks c (ArtistID artist)));
        rewrite ?appendTopTracks_length; unfold llen in *;
        rewrite ?length_app; cbn [List.length];
        try match goal with
            | |- context [0 <? ?n] => destruct (0 <? n)
            end; lia.
    + lia.
Qed.

(** The genre line of a track.  Genres of the album itself are shown
    whatever the client answers.  Without them, and with a first artist:
    when the artist is fetched and has genres, the genre line is the ninth
    line; when the fetch fails, the panel has its eight lines and none
    carries the label [Genres]. *)
Theorem track_genre_fallback (w : World) (track : Track) :
  (AlbumGenres (TrackAlbum track) <> [] ->
   forall c1 c2 : option Client,
     trackInfoLines w track c1 = trackInfoLines w track c2)
  /\ (forall (client : Client) (first : Artist) (others : list Artist),
        AlbumGenres (TrackAlbum track) = [] ->
        TrackArtists track = first :: others ->
        (forall artist : Artist,
           GetArtist client (ArtistID first) = Ok artist ->
           ArtistGenres artist <> [] ->
           nth_error (trackInfoLines w track (Some client)) 8
           = Some (formatInfoLine "Genres" (genreString (ArtistGenres artist)) ColorRed))
        /\ (forall e : string,
              GetArtist client (ArtistID first) = Err e ->
              llen (trackInfoLines w track (Some client)) = 8
              /\ Forall (fun line => isGenreLine line = false)
                        (trackInfoLines w track (Some client)))).
Proof.
  split.
  - intros Hown c1 c2. unfold trackInfoLines, genresOrFallback.
    destruct (AlbumGenres (TrackAlbum track)); [contradiction | reflexivity].
  - intros client first others Hown Hartists. split.
    + intros artist Hget Hne.
      unfold trackInfoLines, genresOrFallback. rewrite Hown, Hartists, Hget.
      unfold appendGenres. destruct (ArtistGenres artist); [contradiction | reflexivity].
    + intros e Hget.
      unfold trackInfoLines, genresOrFallback. rewrite Hown, Hartists, Hget.
      split; [reflexivity |].
      cbn [appendGenres llen List.length Z.of_nat Z.ltb Z.compare].
      repeat (apply Forall_cons; [vm_compute; reflexivity |]).
      apply Forall_nil.
Qed.

Lemma track_genre_fallback_witness :
  nth_error (trackInfoLines quietWorld someTrack (Some answeringClient)) 8
  = Some (formatInfoLine "Genres" "neo-psychedelic, modern rock" ColorRed)
  /\ llen (trackInfoLines failingWorld someTrack (Some refusingClient)) = 8.
Proof.
  destruct (track_genre_fallback quietWorld someTrack) as [_ Hq].
  destruct (Hq answeringClient someArtist [] eq_refl eq_refl) as [Hok _].
  destruct (track_genre_fallback failingWorld someTrack) as [_ Hf].
  destruct (Hf refusingClient someArtist [] eq_refl eq_refl) as [_ Herr].
  split.
  - apply (Hok someArtist eq_refl). discriminate.
  - apply (Herr "failed to get artist: 401 Unauthorized" eq_refl).
Defined.

(* ================================================================= *)
(** ** Further properties: the composition *)

Lemma imageLoop_prints (imageLines : list string) (lo : Z) (out : list string) :
  0 <= lo ->
  forRange lo (llen imageLines)
    (fun i => line <- index imageLines i ;; Print (line ++ gap ++ NL)) out
  = (Returned tt,
     (out ++ map (fun i => (nth (Z.to_nat i) imageLines EmptyString ++ gap ++ NL)%string)
                 (zrange lo (llen imageLines)))%list).
Proof.
  intros Hlo. unfold forRange.
  apply forEach_prints. intros i out0 Hi. apply zrange_bounds in Hi.
  unfold bind. rewrite index_in_range by lia. reflexivity.
Qed.

Lemma bind_returned {A B : Type} (m : Proc A) (k : A -> Proc B)
    (out out1 : list string) (a : A) :
  m out = (Returned a, out1) -> bind m k out = k a out1.
Proof.
  intros H. unfold bind. now rewrite H.
Qed.

Lemma linkSection_rows (w : World) (imageLines links : list string)
    (targetLines : Z) (out : list string) :
  0 <= targetLines ->
  linkSection w imageLines links targetLines out
  = (Returned tt, (out ++ linkRows w imageLines links targetLines)%list).
Proof.
  intros HT. unfold linkSection, linkRows, linkLineOf.
  destruct (0 <? llen links) eqn:Hl.
  - apply Z.ltb_lt in Hl.
    set (s0 := fst (classifyLinks w links)).
    set (i0 := snd (classifyLinks w links)).
    rewrite (bind_returned _ _ out out
               (if targetLines <? llen imageLines
                then nth (Z.to_nat targetLines) imageLines EmptyString
                else blankImage)).
    2:{ destruct (Z.ltb_spec targetLines (llen imageLines)).
        - now rewrite index_in_range by lia.
        - reflexivity. }
    rewrite (bind_returned _ _ out out
               (if isEmpty s0 && true then nth 0 links EmptyString else s0)).
    2:{ destruct (isEmpty s0 && true); [| reflexivity].
        now rewrite index_in_range by lia. }
    rewrite (bind_returned _ _ out out
               (if isEmpty i0 && (1 <? llen links) then nth 1 links EmptyString else i0)).
    2:{ destruct (Z.ltb_spec 1 (llen links)).
        - destruct (isEmpty i0); cbn [andb]; [| reflexivity].
          now rewrite index_in_range by lia.
        - now rewrite andb_false_r. }
    unfold bind, Print.
    rewrite imageLoop_prints by lia.
    now rewrite <- app_assoc.
  - apply imageLoop_prints. exact HT.
Qed.

(** The composition returns when one of the two lists has at least two
    lines, and then prints the main rows followed by the link rows; when
    both lists have fewer than two lines it panics on an index out of
    range. *)
Theorem composition_returns_or_panics (w : World)
    (imageLines infoLines links out : list string) :
  (2 <= Z.max (llen imageLines) (llen infoLines) ->
   displaySideBySideWithLinks w imageLines infoLines links out
   = (Returned tt,
      (out
       ++ mainRows imageLines
            (padLines infoLines (Z.max (llen imageLines) (llen infoLines) - 2) EmptyString)
            (Z.max (llen imageLines) (llen infoLines) - 2)
       ++ linkRows w imageLines links (Z.max (llen imageLines) (llen infoLines) - 2))%list))
  /\ (Z.max (llen imageLines) (llen infoLines) < 2 ->
      displaySideBySideWithLinks w imageLines infoLines links out
      = (Panicked "index out of range", out)).
Proof.
  split; intros H.
  - rewrite displaySideBySideWithLinks_rows, targetLinesOf_max.
    rewrite linkSection_rows by lia. now rewrite <- app_assoc.
  - rewrite displaySideBySideWithLinks_rows, targetLinesOf_max.
    set (T := Z.max (llen imageLines) (llen infoLines) - 2).
    assert (HT : T = -2 \/ T = -1) by (unfold T, llen in *; lia).
    assert (Hrows : mainRows imageLines (padLines infoLines T EmptyString) T = []).
    { unfold mainRows, zrange. now destruct HT as [-> | ->]. }
    rewrite Hrows, app_nil_r.
    unfold linkSection.
    assert (Hidx : index imageLines T out = (Panicked "index out of range", out)).
    { unfold index. destruct (Z.leb_spec 0 T); [lia | reflexivity]. }
    destruct (Z.ltb_spec 0 (llen links)).
    + unfold bind at 1.
      destruct (Z.ltb_spec T (llen imageLines)); [| unfold llen in *; lia].
      now rewrite Hidx.
    + unfold forRange.
      assert (Hrange : exists rest, zrange T (llen imageLines) = T :: rest).
      { unfold zrange.
        destruct (Z.to_nat (llen imageLines - T)) as [|n] eqn:Hn;
          [unfold llen in *; lia |].
        cbn [seq map]. rewrite Z.add_0_r. eexists. reflexivity. }
      destruct Hrange as [rest ->]. cbn [forEach].
      unfold bind. now rewrite Hidx.
Qed.

Lemma composition_returns_or_panics_witness :
  outcome (displaySideBySideWithLinks quietWorld ["i0"; "i1"] ["Name"] ["Spotify"])
  = Returned tt
  /\ outcome (displaySideBySideWithLinks quietWorld ["i0"] ["Name"] ["Spotify"])
     = Panicked "index out of range".
Proof.
  unfold outcome. split.
  - destruct (composition_returns_or_panics quietWorld ["i0"; "i1"] ["Name"] ["Spotify"] [])
      as [H _].
    rewrite H; [reflexivity | vm_compute; discriminate].
  - destruct (composition_returns_or_panics quietWorld ["i0"] ["Name"] ["Spotify"] [])
      as [_ H].
    rewrite H; [reflexivity | vm_compute; reflexivity].
Defined.

Lemma endsWithNL_append (s : string) : endsWithNL (s ++ NL) = true.
Proof.
  induction s as [|c s IH]; [reflexivity |].
  cbn [append endsWithNL]. destruct (s ++ NL) eqn:Hs; [| exact IH].
  destruct s; discriminate Hs.
Qed.

Lemma endsWithNL_row (a b c : string) : endsWithNL (a ++ b ++ c ++ NL) = true.
Proof.
  replace (a ++ b ++ c ++ NL) with ((a ++ b ++ c) ++ NL).
  - apply endsWithNL_append.
  - induction a as [|x a IH]; cbn [append].
    + induction b as [|y b IHb]; cbn [append]; [reflexivity | now rewrite IHb].
    + now rewrite IH.
Qed.

Lemma mainRows_length (imageLines infoLines : list string) (targetLines : Z) :
  llen (mainRows imageLines infoLines targetLines) = Z.max 0 targetLines.
Proof.
  unfold mainRows, llen. rewrite length_map, zrange_length. lia.
Qed.

Lemma linkRows_length (w : World) (imageLines links : list string) (targetLines : Z) :
  llen (linkRows w imageLines links targetLines)
  = if 0 <? llen links
    then 1 + Z.max 0 (llen imageLines - (targetLines + 1))
    else Z.max 0 (llen imageLines - targetLines).
Proof.
  unfold linkRows. destruct (0 <? llen links); unfold llen;
    cbn [List.length]; rewrite length_map, zrange_length; lia.
Qed.

Lemma zrange_nth (lo hi : Z) (k : nat) (d : Z) :
  Z.of_nat k < hi - lo -> nth k (zrange lo hi) d = lo + Z.of_nat k.
Proof.
  intros H. unfold zrange.
  rewrite (nth_indep _ d (lo + Z.of_nat 0)) by (rewrite length_map, length_seq; lia).
  rewrite (map_nth (fun k => lo + Z.of_nat k)), seq_nth by lia. reflexivity.
Qed.

(** When the composition returns, everything it prints ends with a
    newline; and when the info panel has no more lines than the image, it
    prints exactly as many lines as the image has. *)
Theorem composition_line_count (w : World) (imageLines infoLines links : list string) :
  2 <= Z.max (llen imageLines) (llen infoLines) ->
  Forall (fun chunk => endsWithNL chunk = true)
         (stdout (displaySideBySideWithLinks w imageLines infoLines links))
  /\ (llen infoLines <= llen imageLines ->
      llen (stdout (displaySideBySideWithLinks w imageLines infoLines links))
      = llen imageLines).
Proof.
  intros H.
  destruct (composition_returns_or_panics w imageLines infoLines links []) as [Hret _].
  unfold stdout. rewrite (Hret H). cbn [snd app].
  set (T := Z.max (llen imageLines) (llen infoLines) - 2).
  split.
  - apply Forall_app. split.
    + unfold mainRows. apply Forall_forall. intros chunk Hin.
      apply in_map_iff in Hin. destruct Hin as [i [<- _]]. apply endsWithNL_row.
    + unfold linkRows.
      assert (Himg : forall lo,
                 Forall (fun chunk => endsWithNL chunk = true)
                   (map (fun i => nth (Z.to_nat i) imageLines EmptyString ++ gap ++ NL)
                        (zrange lo (llen imageLines)))).
      { intros lo. apply Forall_forall. intros chunk Hin.
        apply in_map_iff in Hin. destruct Hin as [i [<- _]].
        apply (endsWithNL_row _ gap EmptyString). }
      destruct (0 <? llen links); [| apply Himg].
      apply Forall_cons; [apply endsWithNL_row | apply Himg].
  - intros Hle.
    assert (Hlen : forall (xs ys : list string), llen (xs ++ ys) = llen xs + llen ys).
    { intros xs ys. unfold llen. rewrite length_app. lia. }
    rewrite Hlen, mainRows_length, linkRows_length.
    destruct (0 <? llen links); unfold T; lia.
Qed.

Lemma composition_line_count_witness :
  llen (stdout (displaySideBySideWithLinks quietWorld
                  ["i0"; "i1"; "i2"; "i3"] ["Name"] ["Spotify"])) = 4.
Proof.
  destruct (composition_line_count quietWorld ["i0"; "i1"; "i2"; "i3"] ["Name"] ["Spotify"])
    as [_ H].
  - vm_compute. discriminate.
  - apply H. vm_compute. discriminate.
Defined.

(** When the info panel is at least two lines shorter than the image,
    every info line is shown: line [i] of the output is the image line
    [i], the gap and the info line [i]. *)
Theorem composition_shows_every_info_line (w : World)
    (imageLines infoLines links : list string) (i : Z) :
  llen infoLines + 2 <= llen imageLines ->
  0 <= i < llen infoLines ->
  nth (Z.to_nat i) (stdout (displaySideBySideWithLinks w imageLines infoLines links))
      EmptyString
  = nth (Z.to_nat i) imageLines EmptyString ++ gap
    ++ nth (Z.to_nat i) infoLines EmptyString ++ NL.
Proof.
  intros Hle Hi.
  destruct (composition_returns_or_panics w imageLines infoLines links []) as [Hret _].
  unfold stdout. rewrite Hret by (unfold llen in *; lia). cbn [snd app].
  replace (Z.max (llen imageLines) (llen infoLines) - 2) with (llen imageLines - 2) by lia.
  rewrite app_nth1 by (apply Nat2Z.inj_lt; fold (llen (mainRows imageLines
      (padLines infoLines (llen imageLines - 2) EmptyString) (llen imageLines - 2)));
      rewrite mainRows_length; lia).
  unfold mainRows.
  rewrite (nth_indep _ EmptyString
             ((fun i0 => (if i0 <? llen imageLines
                          then nth (Z.to_nat i0) imageLines EmptyString
                          else blankImage)
                         ++ gap
                         ++ nth (Z.to_nat i0)
                              (padLines infoLines (llen imageLines - 2) EmptyString)
                              EmptyString ++ NL) 0))
    by (rewrite length_map, zrange_length; lia).
  rewrite (map_nth (fun i0 => (if i0 <? llen imageLines
                          then nth (Z.to_nat i0) imageLines EmptyString
                          else blankImage)
                         ++ gap
                         ++ nth (Z.to_nat i0)
                              (padLines infoLines (llen imageLines - 2) EmptyString)
                              EmptyString ++ NL)).
  rewrite zrange_nth by lia.
  replace (0 + Z.of_nat (Z.to_nat i)) with i by lia.
  destruct (Z.ltb_spec i (llen imageLines)); [| lia].
  unfold padLines. rewrite app_nth1 by (unfold llen in *; lia). reflexivity.
Qed.

Lemma composition_shows_every_info_line_witness :
  nth 1 (stdout (displaySideBySideWithLinks quietWorld
                   ["i0"; "i1"; "i2"; "i3"] ["Name"; "Artist"] ["Spotify"])) EmptyString
  = "i1" ++ gap ++ "Artist" ++ NL.
Proof.
  apply (composition_shows_every_info_line quietWorld
           ["i0"; "i1"; "i2"; "i3"] ["Name"; "Artist"] ["Spotify"] 1).
  - vm_compute. discriminate.
  - split; [lia | reflexivity].
Defined.

Lemma isEmpty_false (s : string) : s <> EmptyString -> isEmpty s = false.
Proof.
  intros H. destruct (isEmpty s) eqn:He; [| reflexivity].
  apply isEmpty_true in He. contradiction.
Qed.

Lemma linkLineOf_two_links (w : World) (a b : string) :
  a <> EmptyString -> b <> EmptyString ->
  linkLineOf w [a; b]
  = match Contains (strings_ToLower w a) "spotify",
          Contains (strings_ToLower w b) "spotify" with
    | true, false => a ++ gap ++ b
    | false, true => b ++ gap ++ a
    | false, false => a ++ gap ++ b
    | true, true => b ++ gap ++ b
    end.
Proof.
  intros Ha Hb. unfold linkLineOf, classifyLinks. cbn [fold_left fst snd].
  destruct (Contains (strings_ToLower w a) "spotify");
    destruct (Contains (strings_ToLower w b) "spotify");
    cbn -[isEmpty gap append];
    try change (isEmpty EmptyString) with true;
    rewrite ?(isEmpty_false a Ha), ?(isEmpty_false b Hb);
    cbn -[isEmpty gap append];
    rewrite ?(isEmpty_false a Ha), ?(isEmpty_false b Hb); reflexivity.
Qed.

(** The link row of two links that are not empty, for a target that is
    not negative: the image line of the target (or the filler), the gap
    and the two links, followed by the remaining image lines.  When
    exactly one link contains [spotify] in lower case it comes first; when
    neither does they keep their order; when both do, the second is
    printed twice and the first is not printed. *)
Theorem linkSection_two_links (w : World) (imageLines : list string) (a b : string)
    (targetLines : Z) (out : list string) :
  a <> EmptyString -> b <> EmptyString -> 0 <= targetLines ->
  linkSection w imageLines [a; b] targetLines out
  = (Returned tt,
     (out
      ++ ((if (targetLines <? llen imageLines)%Z
           then nth (Z.to_nat targetLines) imageLines EmptyString
           else blankImage)
          ++ gap
          ++ match Contains (strings_ToLower w a) "spotify",
                   Contains (strings_ToLower w b) "spotify" with
             | true, false => a ++ gap ++ b
             | false, true => b ++ gap ++ a
             | false, false => a ++ gap ++ b
             | true, true => b ++ gap ++ b
             end
          ++ NL)%string
         :: map (fun i => (nth (Z.to_nat i) imageLines EmptyString ++ gap ++ NL)%string)
                (zrange (targetLines + 1) (llen imageLines)))%list).
Proof.
  intros Ha Hb HT.
  rewrite linkSection_rows by exact HT.
  unfold linkRows. rewrite (linkLineOf_two_links w a b Ha Hb). reflexivity.
Qed.

Lemma linkSection_two_links_witness :
  stdout (linkSection quietWorld ["i0"; "i1"; "i2"]
            ["Album Cover at https://i.scdn.co/image/cover"; "Spotify"] 1)
  = [ "i1" ++ gap ++ ("Spotify" ++ gap ++ "Album Cover at https://i.scdn.co/image/cover") ++ NL;
      "i2" ++ gap ++ NL ]
  /\ stdout (linkSection quietWorld ["i0"; "i1"; "i2"]
               ["Album Cover at https://image-cdn-ak.spotifycdn.com/image/cover"; "Spotify"] 1)
     = [ "i1" ++ gap ++ ("Spotify" ++ gap ++ "Spotify") ++ NL;
         "i2" ++ gap ++ NL ].
Proof.
  unfold stdout. split.
  - rewrite (linkSection_two_links quietWorld ["i0"; "i1"; "i2"]
               "Album Cover at https://i.scdn.co/image/cover" "Spotify" 1 []).
    + reflexivity.
    + discriminate.
    + discriminate.
    + lia.
  - rewrite (linkSection_two_links quietWorld ["i0"; "i1"; "i2"]
               "Album Cover at https://image-cdn-ak.spotifycdn.com/image/cover" "Spotify" 1 []).
    + reflexivity.
    + discriminate.
    + discriminate.
    + lia.
Defined.

(** The three display functions return in every world: they neither panic
    nor exit. *)
Theorem Display_returns (w : World) (client : option Client) (imageSize : Z)
    (out : list string) :
  (forall track, fst (DisplayTrack w track client imageSize out) = Returned tt)
  /\ (forall album, fst (DisplayAlbum w album client imageSize out) = Returned tt)
  /\ (forall artist, fst (DisplayArtist w artist client imageSize out) = Returned tt).
Proof.
  destruct (panel_sizes w client) as (Ht & Ha & Hr).
  split; [| split].
  - intros track. unfold DisplayTrack.
    destruct (composition_returns_or_panics w
                (imageLinesOf w (NewImageRenderer imageSize) (AlbumImages (TrackAlbum track)))
                (trackInfoLines w track client) (trackLinks track) out) as [H _].
    rewrite H; [reflexivity |]. specialize (Ht track). lia.
  - intros album. unfold DisplayAlbum.
    destruct (composition_returns_or_panics w
                (imageLinesOf w (NewImageRenderer imageSize) (AlbumImages album))
                (albumInfoLines w album client) (albumLinks album) out) as [H _].
    rewrite H; [reflexivity |]. destruct (Ha album) as [_ Hb]. lia.
  - intros artist. unfold DisplayArtist.
    destruct (composition_returns_or_panics w
                (imageLinesOf w (NewImageRenderer imageSize) (ArtistImages artist))
                (artistInfoLines w artist client) (artistLinks artist) out) as [H _].
    rewrite H; [reflexivity |]. specialize (Hr artist). lia.
Qed.

(* ================================================================= *)
(** ** Further properties: the search command *)

Lemma searchAuto_returns (w : World) (client : Client) (imageSize : Z)
    (query : string) (out : list string) :
  fst (searchAuto w client imageSize query out) = Returned tt.
Proof.
  destruct (Display_returns w (Some client) imageSize out) as (Ht & Ha & Hr).
  unfold searchAuto.
  destruct (Search client query "track") as [[[|t ts] ? ?]|?]; try apply Ht;
    destruct (Search client query "album") as [[? [|a as'] ?]|?];
    try (destruct (GetAlbum client (AlbumID a)); [apply Ha |]);
    destruct (Search client query "artist") as [[? ? [|r rs]]|?];
    try reflexivity;
    destruct (GetArtist client (ArtistID r)); try apply Hr; reflexivity.
Qed.

Lemma searchSpecific_outcome (w : World) (client : Client) (imageSize : Z)
    (query sType : string) (out : list string) :
  match Search client query sType with
  | Err err =>
      searchSpecific w client imageSize query sType out
      = (Exited 1, (out ++ [("Search failed: " ++ err ++ NL)%string])%list)
  | Ok _ => fst (searchSpecific w client imageSize query sType out) = Returned tt
  end.
Proof.
  destruct (Display_returns w (Some client) imageSize out) as (Ht & Ha & Hr).
  unfold searchSpecific.
  destruct (Search client query sType) as [result | err]; [| reflexivity].
  destruct (String.eqb sType "track").
  { destruct (TracksFound result); [reflexivity | apply Ht]. }
  destruct (String.eqb sType "album").
  { destruct (AlbumsFound result) as [|a ?]; [reflexivity |].
    destruct (GetAlbum client (AlbumID a)); [apply Ha | reflexivity]. }
  destruct (String.eqb sType "artist").
  { destruct (ArtistsFound result) as [|r ?]; [reflexivity |].
    destruct (GetArtist client (ArtistID r)); [apply Hr | reflexivity]. }
  reflexivity.
Qed.

Lemma extends_Print (s : string) : extends (Print s).
Proof. intros out. now exists [s]. Qed.

Lemma extends_bind {A B : Type} (m : Proc A) (k : A -> Proc B) :
  extends m -> (forall a, extends (k a)) -> extends (bind m k).
Proof.
  intros Hm Hk out. unfold bind.
  destruct (Hm out) as [more1 H1].
  destruct (m out) as [[a | msg | code] out1]; cbn [snd] in H1; subst out1.
  - destruct (Hk a (out ++ more1)%list) as [more2 H2].
    exists (more1 ++ more2)%list. now rewrite H2, app_assoc.
  - now exists more1.
  - now exists more1.
Qed.

Lemma extends_composition (w : World) (imageLines infoLines links : list string) :
  extends (displaySideBySideWithLinks w imageLines infoLines links).
Proof.
  intros out.
  destruct (composition_returns_or_panics w imageLines infoLines links out) as [Hret Hpanic].
  destruct (Z.le_gt_cases 2 (Z.max (llen imageLines) (llen infoLines))) as [H | H].
  - rewrite (Hret H). eexists. reflexivity.
  - rewrite Hpanic by lia. exists []. cbn [snd]. now rewrite app_nil_r.
Qed.

Lemma extends_searchAuto (w : World) (client : Client) (imageSize : Z) (query : string) :
  extends (searchAuto w client imageSize query).
Proof.
  unfold searchAuto, DisplayTrack, DisplayAlbum, DisplayArtist.
  destruct (Search client query "track") as [[[|t ts] ? ?]|?];
    try apply extends_composition;
    destruct (Search client query "album") as [[? [|a as'] ?]|?];
    try (destruct (GetAlbum client (AlbumID a)); [apply extends_composition |]);
    destruct (Search client query "artist") as [[? ? [|r rs]]|?];
    try apply extends_Print;
    destruct (GetArtist client (ArtistID r));
    first [apply extends_composition | apply extends_Print].
Qed.

Lemma extends_searchSpecific (w : World) (client : Client) (imageSize : Z)
    (query sType : string) :
  extends (searchSpecific w client imageSize query sType).
Proof.
  unfold searchSpecific, DisplayTrack, DisplayAlbum, DisplayArtist.
  destruct (Search client query sType) as [result | err].
  - destruct (String.eqb sType "track").
    { destruct (TracksFound result); [apply extends_Print | apply extends_composition]. }
    destruct (String.eqb sType "album").
    { destruct (AlbumsFound result) as [|a ?]; [apply extends_Print |].
      destruct (GetAlbum client (AlbumID a));
        [apply extends_composition | apply extends_Print]. }
    destruct (String.eqb sType "artist").
    { destruct (ArtistsFound result) as [|r ?]; [apply extends_Print |].
      destruct (GetArtist client (ArtistID r));
        [apply extends_composition | apply extends_Print]. }
    intros out. exists []. cbn. now rewrite app_nil_r.
  - apply extends_bind; [apply extends_Print |].
    intros _ out. exists []. cbn. now rewrite app_nil_r.
Qed.

Lemma last_snoc (xs : list string) (x d : string) : last (xs ++ [x]) d = x.
Proof. apply last_last. Qed.

(** The outcome of the search command.  Without credentials it prints
    two lines and exits with status 1, and the cursor is not hidden.  With
    credentials the first thing printed hides the cursor; then either a
    search of a given kind is refused by the catalogue, and the command
    exits with status 1 without showing the cursor again, or the command
    returns, and the last thing printed shows the cursor.  It never
    panics. *)
Theorem searchCmd_outcome (w : World) (query searchType : string) (imageSize : Z) :
  (HasCredentials w = false ->
   searchCmd w query searchType imageSize []
   = (Exited 1,
      [ "No Spotify credentials found!" ++ NL;
        "Run 'mufetch auth' to set up your API credentials." ++ NL ])
   /\ ~ In hideCursor (stdout (searchCmd w query searchType imageSize)))
  /\ (HasCredentials w = true ->
      exists cfg : Config,
        GetConfig w = Ok cfg
        /\ hd EmptyString (stdout (searchCmd w query searchType imageSize)) = hideCursor
        /\ match Search (NewClient w (SpotifyClientID cfg) (SpotifyClientSecret cfg))
                        query searchType with
           | Err err =>
               if String.eqb searchType "auto"
               then outcome (searchCmd w query searchType imageSize) = Returned tt
                    /\ last (stdout (searchCmd w query searchType imageSize)) EmptyString
                       = showCursor
               else searchCmd w query searchType imageSize []
                    = (Exited 1, [hideCursor; NL; "Search failed: " ++ err ++ NL])
           | Ok _ =>
               outcome (searchCmd w query searchType imageSize) = Returned tt
               /\ last (stdout (searchCmd w query searchType imageSize)) EmptyString
                  = showCursor
           end).
Proof.
  split.
  - intros Hcred. unfold stdout, searchCmd. rewrite Hcred. cbn.
    split; [reflexivity |].
    intros [H | [H | []]]; discriminate H.
  - intros Hcred.
    assert (Hcfg : exists cfg, GetConfig w = Ok cfg).
    { unfold HasCredentials in Hcred. destruct (GetConfig w) as [cfg | e];
        [now exists cfg | discriminate]. }
    destruct Hcfg as [cfg Hcfg]. exists cfg. split; [exact Hcfg |].
    set (client := NewClient w (SpotifyClientID cfg) (SpotifyClientSecret cfg)).
    unfold stdout, outcome.
    rewrite (searchCmd_hidden w cfg query searchType imageSize [] Hcred Hcfg).
    fold client. cbn [app].
    set (search := if String.eqb searchType "auto"
                   then searchAuto w client (clampImageSize imageSize) query
                   else searchSpecific w client (clampImageSize imageSize) query searchType).
    assert (Hext : extends search).
    { unfold search. destruct (String.eqb searchType "auto");
        [apply extends_searchAuto | apply extends_searchSpecific]. }
    assert (Hbody : searchBody w client query searchType imageSize [hideCursor]
                    = match search [hideCursor; NL] with
                      | (Returned _, out1) =>
                          (Returned tt, (out1 ++ [(ESC ++ "[F" ++ ESC ++ "[K" ++ NL)%string])%list)
                      | (Panicked msg, out1) => (Panicked msg, out1)
                      | (Exited code, out1) => (Exited code, out1)
                      end).
    { unfold searchBody, bind, Print. fold search. cbn [app].
      destruct (search [hideCursor; NL]) as [[[] | msg | code] out1]; reflexivity. }
    destruct (Hext [hideCursor; NL]) as [more Hmore].
    assert (Hreturned : fst (search [hideCursor; NL]) = Returned tt ->
              fst (defer (Print showCursor)
                     (searchBody w client query searchType imageSize) [hideCursor])
              = Returned tt
              /\ last (snd (defer (Print showCursor)
                              (searchBody w client query searchType imageSize)
                              [hideCursor])) EmptyString = showCursor).
    { intros Hr. unfold defer. rewrite Hbody.
      destruct (search [hideCursor; NL]) as [o out1]. cbn [fst] in Hr. subst o.
      unfold Print. cbn [fst snd]. split; [reflexivity | apply last_snoc]. }
    split.
    + unfold defer. rewrite Hbody.
      destruct (search [hideCursor; NL]) as [[[] | msg | code] out1];
        cbn [snd] in Hmore; subst out1; reflexivity.
    + pose proof (searchSpecific_outcome w client (clampImageSize imageSize)
                    query searchType [hideCursor; NL]) as Hspec.
      pose proof (searchAuto_returns w client (clampImageSize imageSize)
                    query [hideCursor; NL]) as Hauto.
      destruct (Search client query searchType) as [result | err].
      * apply Hreturned. unfold search.
        destruct (String.eqb searchType "auto"); assumption.
      * destruct (String.eqb searchType "auto") eqn:Ha.
        -- apply Hreturned. unfold search. exact Hauto.
        -- unfold defer. rewrite Hbody. unfold search. rewrite Hspec. reflexivity.
Qed.

Lemma searchCmd_outcome_witness :
  outcome (searchCmd quietWorld "Currents" "auto" 20) = Returned tt
  /\ last (stdout (searchCmd quietWorld "Currents" "auto" 20)) EmptyString = showCursor.
Proof.
  destruct (searchCmd_outcome quietWorld "Currents" "auto" 20) as [_ H].
  destruct (H eq_refl) as (cfg & Hcfg & _ & Hcase).
  injection Hcfg as <-. exact Hcase.
Defined.

(* ================================================================= *)
(** ** Further properties: the auth command *)

(** The auth command.  When one of the two credentials is empty it prints
    the error and exits with status 1 whatever saving would do: nothing
    is saved.  Otherwise the credentials are passed on even when they are
    short: the warning is printed exactly when one of them has fewer than
    10 bytes, and the command returns when they are saved and exits with
    status 1, naming the error, when they are not. *)
Theorem authCmd_outcome (SetCredentials : string -> string -> Result unit)
    (clientID clientSecret : string) :
  (clientID = EmptyString \/ clientSecret = EmptyString ->
   authCmd SetCredentials clientID clientSecret []
   = (Exited 1,
      (authBanner
       ++ ["Enter your Spotify Client ID: "; "Enter your Spotify Client Secret: ";
           authErrorLine])%list))
  /\ (clientID <> EmptyString -> clientSecret <> EmptyString ->
      (In authWarningLine (stdout (authCmd SetCredentials clientID clientSecret))
       <-> len clientID < 10 \/ len clientSecret < 10)
      /\ match SetCredentials clientID clientSecret with
         | Ok _ =>
             outcome (authCmd SetCredentials clientID clientSecret) = Returned tt
             /\ In ("Credentials saved successfully!" ++ NL)
                   (stdout (authCmd SetCredentials clientID clientSecret))
         | Err err =>
             outcome (authCmd SetCredentials clientID clientSecret) = Exited 1
             /\ last (stdout (authCmd SetCredentials clientID clientSecret)) EmptyString
                = "Failed to save credentials: " ++ err ++ NL
             /\ ~ In ("Credentials saved successfully!" ++ NL)
                     (stdout (authCmd SetCredentials clientID clientSecret))
         end).
Proof.
  split.
  - intros Hempty. unfold authCmd.
    assert (He : isEmpty clientID || isEmpty clientSecret = true).
    { destruct Hempty as [-> | ->]; [reflexivity |]. apply orb_true_r. }
    rewrite He. reflexivity.
  - intros Hid Hsecret.
    unfold stdout, outcome, authCmd.
    rewrite (isEmpty_false clientID Hid), (isEmpty_false clientSecret Hsecret).
    cbn [orb].
    destruct (Z.ltb_spec (len clientID) 10) as [H1 | H1];
      destruct (Z.ltb_spec (len clientSecret) 10) as [H2 | H2]; cbn [orb];
      destruct (SetCredentials clientID clientSecret) as [[] | err];
      cbn -[authWarningLine];
      (split; [split; [intros Hin | intros Hshort] |]);
      try lia;
      try (repeat split; try reflexivity; cbn; intuition discriminate);
      try (cbn in Hin; intuition discriminate);
      try (cbn; tauto).
Qed.

Lemma authCmd_outcome_witness :
  outcome (authCmd (fun _ _ => Ok tt) "abc" "0123456789abcdef") = Returned tt
  /\ In authWarningLine (stdout (authCmd (fun _ _ => Ok tt) "abc" "0123456789abcdef")).
Proof.
  destruct (authCmd_outcome (fun _ _ => Ok tt) "abc" "0123456789abcdef") as [_ H].
  destruct H as [Hwarn Hsave]; [discriminate | discriminate |].
  split.
  - apply Hsave.
  - apply Hwarn. left. vm_compute. reflexivity.
Defined.

(* ================================================================= *)
(** ** Further properties: the token of the client *)

(** While the token has not expired, [authenticate] succeeds without a
    request: the network is not consulted and the client is unchanged. *)
Theorem authenticate_reuses_token (net : SpotifyClient.Net) (now later : Z)
    (c : SpotifyClient.State) :
  now < SpotifyClient.TokenExpiry c ->
  SpotifyClient.authenticate net now later c = (Ok tt, c).
Proof.
  intros H. unfold SpotifyClient.authenticate.
  destruct (Z.ltb_spec now (SpotifyClient.TokenExpiry c)); [reflexivity | lia].
Qed.

Lemma authenticate_reuses_token_witness :
  SpotifyClient.authenticate deadNet 5 6
    {| SpotifyClient.ClientID := "id"; SpotifyClient.ClientSecret := "secret";
       SpotifyClient.AccessToken := "BQDtoken"; SpotifyClient.TokenExpiry := 10 |}
  = (Ok tt,
     {| SpotifyClient.ClientID := "id"; SpotifyClient.ClientSecret := "secret";
        SpotifyClient.AccessToken := "BQDtoken"; SpotifyClient.TokenExpiry := 10 |}).
Proof.
  apply (authenticate_reuses_token deadNet 5 6). cbn. lia.
Defined.

(** What [authenticate] leaves behind.  On an error the client is
    unchanged.  On success with an expired token, the token endpoint
    answered 200 with a body that decodes, the client holds the new token
    and the same credentials, and the token expires [ExpiresIn] seconds
    (as an [int64] of nanoseconds) after the answer. *)
Theorem authenticate_result (net : SpotifyClient.Net) (now later : Z)
    (c c1 : SpotifyClient.State) (r : Result unit) :
  SpotifyClient.authenticate net now later c = (r, c1) ->
  match r with
  | Err _ => c1 = c
  | Ok _ =>
      (now < SpotifyClient.TokenExpiry c /\ c1 = c)
      \/ (SpotifyClient.TokenExpiry c <= now
          /\ exists resp tokenResp,
               SpotifyClient.Do net (SpotifyClient.tokenRequest c net) = Ok resp
               /\ SpotifyClient.StatusCode resp = 200
               /\ SpotifyClient.decodeToken net (SpotifyClient.Body resp) = Ok tokenResp
               /\ SpotifyClient.AccessToken c1 = SpotifyClient.Token tokenResp
               /\ SpotifyClient.TokenExpiry c1
                  = later + int64 (SpotifyClient.ExpiresIn tokenResp * 1000000000)
               /\ SpotifyClient.ClientID c1 = SpotifyClient.ClientID c
               /\ SpotifyClient.ClientSecret c1 = SpotifyClient.ClientSecret c)
  end.
Proof.
  unfold SpotifyClient.authenticate.
  destruct (Z.ltb_spec now (SpotifyClient.TokenExpiry c)) as [Hvalid | Hexpired].
  - intros [= <- <-]. left. split; [exact Hvalid | reflexivity].
  - destruct (SpotifyClient.Do net (SpotifyClient.tokenRequest c net)) as [resp | err] eqn:Hdo.
    + destruct (Z.eqb_spec (SpotifyClient.StatusCode resp) 200) as [Hstatus | Hstatus];
        cbn [negb].
      * destruct (SpotifyClient.decodeToken net (SpotifyClient.Body resp))
          as [tokenResp | err] eqn:Hdec.
        -- intros [= <- <-]. right. split; [exact Hexpired |].
           exists resp, tokenResp. cbn. repeat split; assumption.
        -- intros [= <- <-]. reflexivity.
      * intros [= <- <-]. reflexivity.
    + intros [= <- <-]. reflexivity.
Qed.

Lemma authenticate_result_witness :
  SpotifyClient.AccessToken
    (snd (SpotifyClient.authenticate liveNet 100 120 (SpotifyClient.NewClient "id" "secret")))
  = "BQDtoken"
  /\ SpotifyClient.TokenExpiry
       (snd (SpotifyClient.authenticate liveNet 100 120
               (SpotifyClient.NewClient "id" "secret")))
     = 120 + 3600 * 1000000000.
Proof.
  pose proof (authenticate_result liveNet 100 120 (SpotifyClient.NewClient "id" "secret")
                (snd (SpotifyClient.authenticate liveNet 100 120
                        (SpotifyClient.NewClient "id" "secret")))
                (Ok tt) eq_refl) as H.
  cbv beta iota in H.
  destruct H as [[Hlt _] | (_ & resp & tok & _ & _ & Hdec & Htok & Hexp & _)].
  - cbn in Hlt. lia.
  - injection Hdec as <-. split; [exact Htok | exact Hexp].
Defined.

(** A token that was just obtained is used again: after a successful
    [authenticate] that asked for a token granted for [n] seconds, with
    [0 < n] below the range of [int64] nanoseconds, every call before
    [later + n] seconds succeeds without a request. *)
Theorem authenticate_then_reuse (net net2 : SpotifyClient.Net) (now later now2 later2 : Z)
    (c c1 : SpotifyClient.State) (resp : SpotifyClient.Response)
    (tokenResp : SpotifyClient.TokenResponse) :
  SpotifyClient.TokenExpiry c <= now ->
  SpotifyClient.Do net (SpotifyClient.tokenRequest c net) = Ok resp ->
  SpotifyClient.StatusCode resp = 200 ->
  SpotifyClient.decodeToken net (SpotifyClient.Body resp) = Ok tokenResp ->
  0 < SpotifyClient.ExpiresIn tokenResp < 9223372036 ->
  SpotifyClient.authenticate net now later c = (Ok tt, c1) ->
  now2 < later + SpotifyClient.ExpiresIn tokenResp * 1000000000 ->
  SpotifyClient.authenticate net2 now2 later2 c1 = (Ok tt, c1)
  /\ SpotifyClient.AccessToken c1 = SpotifyClient.Token tokenResp.
Proof.
  intros Hexpired Hdo Hstatus Hdec Hrange Hauth Hnow2.
  unfold SpotifyClient.authenticate in Hauth.
  destruct (Z.ltb_spec now (SpotifyClient.TokenExpiry c)); [lia |].
  rewrite Hdo, Hstatus, Hdec in Hauth. cbn [Z.eqb Pos.eqb negb] in Hauth.
  injection Hauth as <-.
  split; [| reflexivity].
  apply authenticate_reuses_token. cbn [SpotifyClient.TokenExpiry].
  unfold int64.
  rewrite Z.mod_small by lia. lia.
Qed.

Lemma authenticate_then_reuse_witness :
  SpotifyClient.authenticate deadNet 3000000000000 3000000000001
    (snd (SpotifyClient.authenticate liveNet 100 120 (SpotifyClient.NewClient "id" "secret")))
  = (Ok tt,
     snd (SpotifyClient.authenticate liveNet 100 120 (SpotifyClient.NewClient "id" "secret"))).
Proof.
  refine (proj1 (authenticate_then_reuse liveNet deadNet 100 120 3000000000000 3000000000001
                   (SpotifyClient.NewClient "id" "secret") _
                   {| SpotifyClient.StatusCode := 200; SpotifyClient.Status := "200 OK";
                      SpotifyClient.Body := "token" |}
                   {| SpotifyClient.Token := "BQDtoken"; SpotifyClient.TokenType := "Bearer";
                      SpotifyClient.ExpiresIn := 3600 |}
                   _ _ _ _ _ _ _)).
  - cbn. lia.
  - reflexivity.
  - reflexivity.
  - reflexivity.
  - cbn. lia.
  - reflexivity.
  - cbn. lia.
Defined.

(** A record is only returned for an answer 200 to a request that carried
    the token the client holds afterwards; a failed authentication is
    returned as it is and leaves the client unchanged. *)
Theorem GetArtist_result (net : SpotifyClient.Net) (now later : Z)
    (c c1 : SpotifyClient.State) (artistID : string) (r : Result Artist) :
  SpotifyClient.GetArtist net now later c artistID = (r, c1) ->
  c1 = snd (SpotifyClient.authenticate net now later c)
  /\ (forall err, fst (SpotifyClient.authenticate net now later c) = Err err ->
                  r = Err err /\ c1 = c)
  /\ (forall artist, r = Ok artist ->
        exists resp,
          SpotifyClient.Do net
            {| SpotifyClient.Method := "GET";
               SpotifyClient.RequestURL := "https://api.spotify.com/v1/artists/" ++ artistID;
               SpotifyClient.Header :=
                 [("Authorization", "Bearer " ++ SpotifyClient.AccessToken c1)];
               SpotifyClient.RequestBody := EmptyString |} = Ok resp
          /\ SpotifyClient.StatusCode resp = 200
          /\ SpotifyClient.decodeArtist net (SpotifyClient.Body resp) = Ok artist).
Proof.
  unfold SpotifyClient.GetArtist, SpotifyClient.getRecord.
  destruct (SpotifyClient.authenticate net now later c) as [[[] | aerr] c2] eqn:Hauth.
  - cbn [fst snd].
    destruct (SpotifyClient.parseURL net _) as [[] | perr].
    + destruct (SpotifyClient.Do net _) as [resp | derr] eqn:Hdo.
      * destruct (Z.eqb_spec (SpotifyClient.StatusCode resp) 200) as [Hstatus | Hstatus];
          cbn [negb]; intros [= <- <-].
        -- split; [reflexivity |]. split; [discriminate |].
           intros artist Hdec. exists resp. repeat split; assumption.
        -- split; [reflexivity |]. split; discriminate.
      * intros [= <- <-]. split; [reflexivity |]. split; discriminate.
    + intros [= <- <-]. split; [reflexivity |]. split; discriminate.
  - cbn [fst snd]. intros [= <- <-].
    pose proof (authenticate_result net now later c c2 (Err aerr) Hauth) as Hsame.
    cbv beta iota in Hsame.
    split; [reflexivity |]. split.
    + intros err [= <-]. split; [reflexivity | exact Hsame].
    + discriminate.
Qed.

Lemma GetArtist_result_witness :
  fst (SpotifyClient.GetArtist liveNet 100 120 (SpotifyClient.NewClient "id" "secret") "a1")
  = Ok someArtist
  /\ fst (SpotifyClient.GetArtist deadNet 100 120 (SpotifyClient.NewClient "id" "secret") "a1")
     = Err "dial tcp: no route to host".
Proof.
  split.
  - reflexivity.
  - destruct (GetArtist_result deadNet 100 120 (SpotifyClient.NewClient "id" "secret")
                (snd (SpotifyClient.GetArtist deadNet 100 120
                        (SpotifyClient.NewClient "id" "secret") "a1"))
                "a1"
                (fst (SpotifyClient.GetArtist deadNet 100 120
                        (SpotifyClient.NewClient "id" "secret") "a1"))
                eq_refl) as (_ & Herr & _).
    apply (Herr "dial tcp: no route to host" eq_refl).
Defined.

(* ================================================================= *)
(** ** Further properties: panels beside the placeholder *)

Lemma getPlaceholderLines_length (r : ImageRenderer) : llen (getPlaceholderLines r) = 20.
Proof. reflexivity. Qed.

(** Beside the placeholder every line of a panel is shown.  For a record
    without an image, line [i] of what the display function prints is the
    line [i] of the placeholder, the gap and the info line [i], for every
    info line of the panel. *)
Theorem panels_shown_beside_placeholder (w : World) (client : option Client)
    (imageSize i : Z) :
  (forall track : Track,
     AlbumImages (TrackAlbum track) = [] ->
     0 <= i < llen (trackInfoLines w track client) ->
     nth (Z.to_nat i) (stdout (DisplayTrack w track client imageSize)) EmptyString
     = nth (Z.to_nat i) (getPlaceholderLines (NewImageRenderer imageSize)) EmptyString
       ++ gap ++ nth (Z.to_nat i) (trackInfoLines w track client) EmptyString ++ NL)
  /\ (forall album : Album,
        AlbumImages album = [] ->
        0 <= i < llen (albumInfoLines w album client) ->
        nth (Z.to_nat i) (stdout (DisplayAlbum w album client imageSize)) EmptyString
        = nth (Z.to_nat i) (getPlaceholderLines (NewImageRenderer imageSize)) EmptyString
          ++ gap ++ nth (Z.to_nat i) (albumInfoLines w album client) EmptyString ++ NL)
  /\ (forall artist : Artist,
        ArtistImages artist = [] ->
        0 <= i < llen (artistInfoLines w artist client) ->
        nth (Z.to_nat i) (stdout (DisplayArtist w artist client imageSize)) EmptyString
        = nth (Z.to_nat i) (getPlaceholderLines (NewImageRenderer imageSize)) EmptyString
          ++ gap ++ nth (Z.to_nat i) (artistInfoLines w artist client) EmptyString ++ NL).
Proof.
  destruct (panel_sizes w client) as (Ht & Ha & Hr).
  pose proof (getPlaceholderLines_length (NewImageRenderer imageSize)) as H20.
  split; [| split].
  - intros track Himg Hi. unfold DisplayTrack, imageLinesOf. rewrite Himg.
    apply composition_shows_every_info_line; [| exact Hi].
    specialize (Ht track). lia.
  - intros album Himg Hi. unfold DisplayAlbum, imageLinesOf. rewrite Himg.
    apply composition_shows_every_info_line; [| exact Hi].
    destruct (Ha album) as [_ Hb]. lia.
  - intros artist Himg Hi. unfold DisplayArtist, imageLinesOf. rewrite Himg.
    apply composition_shows_every_info_line; [| exact Hi].
    specialize (Hr artist). lia.
Qed.

Lemma panels_shown_beside_placeholder_witness :
  nth 0 (stdout (DisplayArtist quietWorld someArtist (Some answeringClient) 20)) EmptyString
  = nth 0 (getPlaceholderLines (NewImageRenderer 20)) EmptyString
    ++ gap ++ formatInfoLine "Name" "Tame Impala" ColorGreen ++ NL.
Proof.
  destruct (panels_shown_beside_placeholder quietWorld (Some answeringClient) 20 0)
    as (_ & _ & H).
  apply (H someArtist eq_refl). vm_compute. split; [discriminate | reflexivity].
Defined.
